(** * koa-middleware-sst-html-polyfill-external-import-map

    A shallow embedding of [src/index.ts] — the element handler registered by
    [transformResponse] and the post-processing done by the middleware that
    [createMiddleware] returns — with the properties of its specification.

    The program talks to collaborators that live outside the repository: the
    [path-browserify] package, the HTML rewriting engine, the JSON built-ins,
    the text codec, the module loader behind [import()], and koa's response
    object.  The path functions are transcribed below; the others are taken as
    an interface ([Runtime]) or modelled as explicit state ([World]), and
    no more is said of them than the program relies on. *)

From Stdlib Require Import ZArith Ascii String List Lia.
From Stdlib.Strings Require Import Byte.
From stdpp Require Import base option gmap strings list.
Import ListNotations.

Local Open Scope string_scope.
Local Open Scope Z_scope.

(* ===================================================================== *)
(** * [path-browserify]: the POSIX path functions the program calls *)
(* ===================================================================== *)

(** A character of a [string] stands for one code unit of the JavaScript
    string.  Only the code units 47 ([/]) and 46 ([.]) are ever inspected. *)
Module Path.

Definition SLASH : ascii := "/"%char.
Definition DOT : ascii := "."%char.

Definition strlen (s : string) : Z := Z.of_nat (String.length s).

(** [s.charCodeAt(i)], [None] where JavaScript answers [NaN]. *)
Definition charAt (s : string) (i : Z) : option ascii :=
  if i <? 0 then None else String.get (Z.to_nat i) s.

Definition is_char (c : ascii) (o : option ascii) : bool :=
  match o with
  | Some d => Ascii.eqb c d
  | None => false
  end.

(** [s.slice(from, to)] for [0 <= from <= to]. *)
Definition slice (s : string) (from to : Z) : string :=
  String.substring (Z.to_nat from) (Z.to_nat (to - from)) s.

(** [s.lastIndexOf("/")], [-1] when there is none. *)
Fixpoint lastIndexOf_from (s : string) (i : Z) (found : Z) : Z :=
  match s with
  | EmptyString => found
  | String c s' =>
      lastIndexOf_from s' (i + 1) (if Ascii.eqb c SLASH then i else found)
  end.

Definition lastIndexOfSlash (s : string) : Z := lastIndexOf_from s 0 (-1).

(** The local variables of [normalizeStringPosix]. *)
Record NormState := mkNorm {
  res : string;
  lastSegmentLength : Z;
  lastSlash : Z;
  dots : Z;
  code : option ascii
}.

Definition norm_init : NormState := mkNorm "" 0 (-1) 0 None.

(** What the loop does at a separator once a [..] segment was read.  The
    result is [Some] when the body ends in [continue]. *)
Definition norm_dotdot (st : NormState) (i : Z) : option NormState :=
  let r := res st in
  if (strlen r <? 2) || negb (lastSegmentLength st =? 2)
     || negb (is_char DOT (charAt r (strlen r - 1)))
     || negb (is_char DOT (charAt r (strlen r - 2)))
  then
    if strlen r >? 2 then
      let lastSlashIndex := lastIndexOfSlash r in
      if negb (lastSlashIndex =? strlen r - 1) then
        if lastSlashIndex =? -1 then
          Some (mkNorm "" 0 i 0 (code st))
        else
          let r' := slice r 0 lastSlashIndex in
          Some (mkNorm r' (strlen r' - 1 - lastIndexOfSlash r') i 0 (code st))
      else None
    else if (strlen r =? 2) || (strlen r =? 1) then
      Some (mkNorm "" 0 i 0 (code st))
    else None
  else None.

(** One turn of the [for (i = 0; i <= path.length; ++i)] loop.  A [break]
    can only happen in the last turn, where it leaves the state as it is. *)
Definition norm_step (path : string) (allowAboveRoot : bool)
    (st : NormState) (i : Z) : NormState :=
  let next_code :=
    if i <? strlen path then Some (charAt path i)
    else if is_char SLASH (code st) then None
    else Some (Some SLASH) in
  match next_code with
  | None => st
  | Some c =>
      let st := mkNorm (res st) (lastSegmentLength st) (lastSlash st) (dots st) c in
      if is_char SLASH c then
        if (lastSlash st =? i - 1) || (dots st =? 1) then
          mkNorm (res st) (lastSegmentLength st) i 0 c
        else if dots st =? 2 then
          match norm_dotdot st i with
          | Some st' => st'
          | None =>
              if allowAboveRoot then
                mkNorm (if strlen (res st) >? 0 then res st ++ "/.." else "..")
                       2 i 0 c
              else mkNorm (res st) (lastSegmentLength st) i 0 c
          end
        else
          let seg := slice path (lastSlash st + 1) i in
          mkNorm (if strlen (res st) >? 0 then res st ++ "/" ++ seg else seg)
                 (i - lastSlash st - 1) i 0 c
      else if is_char DOT c && negb (dots st =? -1) then
        mkNorm (res st) (lastSegmentLength st) (lastSlash st) (dots st + 1) c
      else
        mkNorm (res st) (lastSegmentLength st) (lastSlash st) (-1) c
  end.

Definition indices (n : nat) : list Z := List.map Z.of_nat (List.seq 0 n).

Definition normalizeStringPosix (path : string) (allowAboveRoot : bool) : string :=
  res (List.fold_left (norm_step path allowAboveRoot)
                      (indices (S (String.length path))) norm_init).

Definition isAbsolute (path : string) : bool :=
  (strlen path >? 0) && is_char SLASH (charAt path 0).

Definition normalize (path : string) : string :=
  if strlen path =? 0 then "."
  else
    let isAbs := is_char SLASH (charAt path 0) in
    let trailingSeparator := is_char SLASH (charAt path (strlen path - 1)) in
    let p := normalizeStringPosix path (negb isAbs) in
    let p := if (strlen p =? 0) && negb isAbs then "." else p in
    let p := if (strlen p >? 0) && trailingSeparator then p ++ "/" else p in
    if isAbs then "/" ++ p else p.

(** [join(...args)]: the non-empty arguments glued with [/], normalized. *)
Fixpoint join_args (args : list string) (joined : option string) : option string :=
  match args with
  | [] => joined
  | arg :: rest =>
      join_args rest
        (if strlen arg >? 0 then
           match joined with
           | None => Some arg
           | Some j => Some (j ++ "/" ++ arg)
           end
         else joined)
  end.

Definition join (args : list string) : string :=
  match join_args args None with
  | None => "."
  | Some joined => normalize joined
  end.

(** [resolve(...args)]: the arguments are read from the right until an
    absolute one is met; [cwd] stands for [process.cwd()], read when none
    of them is absolute. *)
Fixpoint resolve_args (rev_args : list string) (resolvedPath : string)
    : string * bool :=
  match rev_args with
  | [] => (resolvedPath, false)
  | path :: rest =>
      if strlen path =? 0 then resolve_args rest resolvedPath
      else
        let resolvedPath := path ++ "/" ++ resolvedPath in
        if is_char SLASH (charAt path 0) then (resolvedPath, true)
        else resolve_args rest resolvedPath
  end.

Definition resolve (cwd : string) (args : list string) : string :=
  let '(resolvedPath, resolvedAbsolute) := resolve_args (rev args ++ [cwd]) "" in
  let resolvedPath := normalizeStringPosix resolvedPath (negb resolvedAbsolute) in
  if resolvedAbsolute then
    if strlen resolvedPath >? 0 then "/" ++ resolvedPath else "/"
  else if strlen resolvedPath >? 0 then resolvedPath
  else ".".

(** The backwards scan of [dirname]: from index [i] down to 1, the index of
    the first [/] that follows (going left) a character that is not one. *)
Fixpoint dirname_scan (path : string) (n : nat) (matchedSlash : bool) : Z :=
  match n with
  | O => -1
  | S n' =>
      let i := Z.of_nat n in
      if is_char SLASH (charAt path i) then
        if negb matchedSlash then i
        else dirname_scan path n' matchedSlash
      else dirname_scan path n' false
  end.

Definition dirname (path : string) : string :=
  if strlen path =? 0 then "."
  else
    let hasRoot := is_char SLASH (charAt path 0) in
    let end_ := dirname_scan path (String.length path - 1) true in
    if end_ =? -1 then (if hasRoot then "/" else ".")
    else if hasRoot && (end_ =? 1) then "//"
    else slice path 0 end_.

End Path.

(* ===================================================================== *)
(** * The collaborators taken as an interface *)
(* ===================================================================== *)

Unset Elimination Schemes.

(** The document as the HTML rewriting engine presents it: character data
    (text, comments, doctype) and elements with the attributes in source
    order.  Tag and attribute names are the lower-case names the engine
    hands to a handler. *)
Inductive node :=
| Text (data : string)
| Elem (tag : string) (attrs : list (string * string)) (children : list node).
Set Elimination Schemes.

(** What the module loader makes of a specifier that it has to load: the
    default export of the module, or one of two failures. *)
Inductive loading (J : Type) :=
| Loaded (default : J)
| Unresolved
| Unloadable.
Arguments Loaded {J} default.
Arguments Unresolved {J}.
Arguments Unloadable {J}.

(** What the host provides and the program only calls. *)
Class Runtime := {
  (** the value a module exports by default *)
  json : Type;
  (** the loader behind [import()], for a specifier that is not in the
      module map, on a given disk.  How it finds a file for the specifier
      (it may try extensions) and what it makes of that file (it goes by the
      file's extension) is the host's business: [Unresolved] when it finds
      nothing to load, [Unloadable] when loading what it found fails *)
  module_load : gmap string string -> string -> loading json;
  (** [JSON.stringify(value)], for a default export that it turns into
      text, as it does every value of a JSON module *)
  JSON_stringify : json -> string;
  (** the bytes of [new Response(text)] *)
  utf8_encode : string -> list byte;
  (** [buffer.toString("utf8")] and [blob.text()] *)
  utf8_decode : list byte -> string;
  (** the tokenizer of [HTMLRewriter] *)
  html_parse : list byte -> list node;
  (** the output side of [HTMLRewriter] *)
  html_serialize : list node -> list byte;
  (** the media type match behind koa's [response.is(type)] *)
  type_is : string -> string -> bool;
  (** [process.cwd()] *)
  process_cwd : string
}.

(* ===================================================================== *)
(** * State, failures and the monad that threads them *)
(* ===================================================================== *)

(** An [fs.ReadStream]: the chunks it has not delivered yet, and whether it
    ends with an ["error"] event instead of ["end"]. *)
Record ReadStream := mkReadStream {
  unread : list (list byte);
  broken : bool
}.

(** The shapes of [ctx.response.body] that the middleware tells apart.
    [BOther] carries [body.constructor.name], [None] for a missing body. *)
Inductive Body :=
| BString (text : string)
| BUint8Array (buffer : list byte)
| BReadStream (stream : ReadStream)
| BOther (constructorName : option string).

(** The part of koa's [ctx] that the middleware reads and writes.  What
    koa does on its own to a response whose body is a stream that fails is
    part of [readStreamToString] below. *)
Record Context := mkContext {
  request_url : string;
  response_body : Body;
  response_type : string
}.

Inductive Event :=
| ShouldRunCalled
| Imported (path : string)
| FileRead (path : string).

Inductive Error :=
| ReferenceLoadFailure (path : string)
| ReferenceParseFailure (path : string)
| StreamFailure
| NotSupported (message : string)
| Downstream (message : string).

Inductive outcome (A : Type) :=
| Ok (a : A)
| Throw (e : Error).
Arguments Ok {A} a.
Arguments Throw {A} e.

(** A computation over a state [S] that returns or throws; the state
    reached is kept in both cases. *)
Definition M (S A : Type) : Type := S -> outcome A * S.

Definition ret {S A} (a : A) : M S A := fun s => (Ok a, s).

Definition throw {S A} (e : Error) : M S A := fun s => (Throw e, s).

Definition bind {S A B} (m : M S A) (k : A -> M S B) : M S B :=
  fun s =>
    match m s with
    | (Ok a, s') => k a s'
    | (Throw e, s') => (Throw e, s')
    end.

Notation "x <- m ;; k" := (bind m (fun x => k))
  (at level 100, m at next level, right associativity).
Notation "m ;;; k" := (bind m (fun _ => k))
  (at level 100, right associativity).

Section Program.

Context {RT : Runtime}.

(** What outlives a request: the files on disk, the loader's module map
    and the record of what was called. *)
Record World := mkWorld {
  files : gmap string string;
  moduleMap : gmap string json;
  log : list Event
}.

Record State := mkState {
  ctx : Context;
  world : World
}.

Definition emit (e : Event) : M World unit :=
  fun w => (Ok tt, mkWorld (files w) (moduleMap w) (log w ++ [e])).

Definition lift_world {A} (m : M World A) : M State A :=
  fun st => let '(r, w) := m (world st) in (r, mkState (ctx st) w).

Definition get_ctx : M State Context := fun st => (Ok (ctx st), st).

Definition set_response_body (b : Body) : M State unit :=
  fun st =>
    (Ok tt, mkState (mkContext (request_url (ctx st)) b (response_type (ctx st)))
                    (world st)).

Definition set_response_type (t : string) : M State unit :=
  fun st =>
    (Ok tt, mkState (mkContext (request_url (ctx st)) (response_body (ctx st)) t)
                    (world st)).

(** [ctx.response.is(t)] *)
Definition response_is (c : Context) (t : string) : bool :=
  type_is (response_type c) t.

(* =================================================================== *)
(** ** [import(path, { assert: { type: "json" } })] *)
(* =================================================================== *)

(** A dynamic import answers from the module map when the specifier was
    loaded before (the language requires the same module for the same
    specifier once a load has succeeded); otherwise the host's loader goes
    to the disk for it ([FileRead] records that) and, when that succeeds,
    the module is entered into the map.  A load that fails leaves the map
    as it is.  The result is the module's default export.  The map is
    keyed by the specifier as the program hands it over, which here is an
    absolute path; the evaluation of a module is taken to have no effect
    on the files. *)
Definition import_json (path : string) : M World json :=
  emit (Imported path) ;;;
  fun w =>
    match moduleMap w !! path with
    | Some m => (Ok m, w)
    | None =>
        let w := mkWorld (files w) (moduleMap w) (log w ++ [FileRead path]) in
        match module_load (files w) path with
        | Unresolved => (Throw (ReferenceLoadFailure path), w)
        | Unloadable => (Throw (ReferenceParseFailure path), w)
        | Loaded m =>
            (Ok m, mkWorld (files w) (<[path := m]> (moduleMap w)) (log w))
        end
    end.

(* =================================================================== *)
(** ** The element handle of [HTMLRewriter] *)
(* =================================================================== *)

(** The handle passed to an element handler: name, attributes, and the
    content asked for by [setInnerContent], if any. *)
Record Element := mkElement {
  tagName : string;
  attributes : list (string * string);
  innerContent : option string
}.

Definition has_name (name : string) (kv : string * string) : bool :=
  String.eqb (fst kv) name.

Definition getAttribute (el : Element) (name : string) : option string :=
  match List.find (has_name name) (attributes el) with
  | Some kv => Some (snd kv)
  | None => None
  end.

(** [removeAttribute] takes out the first attribute of that name: of an
    attribute written twice, the second stays. *)
Fixpoint remove_first (name : string) (attrs : list (string * string))
    : list (string * string) :=
  match attrs with
  | [] => []
  | kv :: rest => if has_name name kv then rest else kv :: remove_first name rest
  end.

Definition removeAttribute (el : Element) (name : string) : Element :=
  mkElement (tagName el) (remove_first name (attributes el)) (innerContent el).

(** Content that is set as text (no [html] option) is written with [&],
    [<] and [>] escaped. *)
Fixpoint escape_text (content : string) : string :=
  match content with
  | EmptyString => EmptyString
  | String c rest =>
      (if Ascii.eqb c "&"%char then "&amp;"
       else if Ascii.eqb c "<"%char then "&lt;"
       else if Ascii.eqb c ">"%char then "&gt;"
       else String c EmptyString) ++ escape_text rest
  end.

(** [setInnerContent(content)]: the character data that the element will
    hold. *)
Definition setInnerContent (el : Element) (content : string) : Element :=
  mkElement (tagName el) (attributes el) (Some (escape_text content)).

(* =================================================================== *)
(** ** [transformResponse] *)
(* =================================================================== *)

(** The [element(el)] handler registered on ["*"]. *)
Definition element_handler (servedDirectoryAbsolutePath htmlFilePath : string)
    (el : Element) : M World Element :=
  if negb (String.eqb (tagName el) "script") then ret el
  else
    match getAttribute el "type" with
    | None => ret el
    | Some typeAttribute =>
        if negb (String.eqb typeAttribute "importmap") then ret el
        else
          match getAttribute el "src" with
          | None => ret el
          | Some srcAttribute =>
              let externalImportMapAbsolutePath :=
                if Path.isAbsolute srcAttribute then
                  Path.join [servedDirectoryAbsolutePath; srcAttribute]
                else
                  Path.resolve process_cwd
                               [Path.dirname htmlFilePath; srcAttribute] in
              externalImportMapModule <- import_json externalImportMapAbsolutePath ;;
              let el := removeAttribute el "src" in
              let el := setInnerContent el (JSON_stringify externalImportMapModule) in
              ret el
          end
    end.

(** The engine's walk: the handler runs on every element in document
    order; an element whose content was replaced keeps only that content.
    (The content of a [script] element is character data: the engine finds
    no element inside one.) *)
Fixpoint rewrite_node (handler : Element -> M World Element) (n : node)
    : M World node :=
  match n with
  | Text data => ret (Text data)
  | Elem tag attrs children =>
      el <- handler (mkElement tag attrs None) ;;
      match innerContent el with
      | Some content => ret (Elem (tagName el) (attributes el) [Text content])
      | None =>
          children' <-
            (fix each (l : list node) : M World (list node) :=
               match l with
               | [] => ret []
               | c :: l' =>
                   c' <- rewrite_node handler c ;;
                   l'' <- each l' ;;
                   ret (c' :: l'')
               end) children ;;
          ret (Elem (tagName el) (attributes el) children')
      end
  end.

Fixpoint rewrite_nodes (handler : Element -> M World Element) (l : list node)
    : M World (list node) :=
  match l with
  | [] => ret []
  | c :: l' =>
      c' <- rewrite_node handler c ;;
      l'' <- rewrite_nodes handler l' ;;
      ret (c' :: l'')
  end.

(** [htmlRewriter.on("*", handler).transform(response)], read to the end. *)
Definition HTMLRewriter_transform (handler : Element -> M World Element)
    (input : list byte) : M World (list byte) :=
  document <- rewrite_nodes handler (html_parse input) ;;
  ret (html_serialize document).

Definition transformResponse (servedDirectoryAbsolutePath htmlFilePath : string)
    (initialResponse : list byte) : M World (list byte) :=
  HTMLRewriter_transform
    (element_handler servedDirectoryAbsolutePath htmlFilePath) initialResponse.

(* =================================================================== *)
(** ** [createMiddleware] *)
(* =================================================================== *)

Record MiddlewareOptions := mkOptions {
  servedDirectoryAbsolutePath : string;
  shouldRun : option (Context -> bool);
  getFilePathOfRequestUrl : string -> string
}.

(** [readStreamToString(stream)], for the stream that is the response
    body: its chunks are consumed, and the promise is rejected when the
    stream ends in an error.  On a stream that is its body koa has an
    ["error"] listener of its own, whose error handling sets the response
    type to [text/plain]: that happens here too. *)
Definition readStreamToString (stream : ReadStream) : M State string :=
  set_response_body (BReadStream (mkReadStream [] (broken stream))) ;;;
  if broken stream then set_response_type "text/plain" ;;; throw StreamFailure
  else ret (utf8_decode (List.concat (unread stream))).

(** [options.shouldRun?.(ctx) ?? true] *)
Definition call_shouldRun (options : MiddlewareOptions) (c : Context) : M State bool :=
  match shouldRun options with
  | None => ret true
  | Some f => lift_world (emit ShouldRunCalled) ;;; ret (f c)
  end.

Definition not_supported_message (constructorName : option string) : string :=
  "Not supported! response.body type '"
    ++ match constructorName with Some n => n | None => "undefined" end
    ++ "'".

(** The three branches share their tail: transform, read the result as
    text, assign body and type. *)
Definition transform_and_install (options : MiddlewareOptions)
    (requestHtmlFileAbsolutePath : string) (input : list byte) : M State unit :=
  transformedResponse <-
    lift_world (transformResponse (servedDirectoryAbsolutePath options)
                                  requestHtmlFileAbsolutePath input) ;;
  let transformedCode := utf8_decode transformedResponse in
  set_response_body (BString transformedCode) ;;;
  set_response_type "text/html".

(** What the middleware does once [next()] has returned. *)
Definition after_next (options : MiddlewareOptions) : M State unit :=
  c <- get_ctx ;;
  if negb (response_is c "text/html") then ret tt
  else
    run <- call_shouldRun options c ;;
    if Bool.eqb run false then ret tt
    else
      let requestHtmlFileAbsolutePath :=
        Path.join [servedDirectoryAbsolutePath options;
                   getFilePathOfRequestUrl options (request_url c)] in
      match response_body c with
      | BString responseBody =>
          transform_and_install options requestHtmlFileAbsolutePath
                                (utf8_encode responseBody)
      | BUint8Array responseBody =>
          transform_and_install options requestHtmlFileAbsolutePath responseBody
      | BReadStream responseBody =>
          initialCode <- readStreamToString responseBody ;;
          transform_and_install options requestHtmlFileAbsolutePath
                                (utf8_encode initialCode)
      | BOther constructorName =>
          throw (NotSupported (not_supported_message constructorName))
      end.

Definition middleware (options : MiddlewareOptions) (next : M State unit)
    : M State unit :=
  next ;;; after_next options.

End Program.

(* ===================================================================== *)
(** * What the specification says, as pure functions *)
(* ===================================================================== *)

Section Specification.

Context {RT : Runtime}.

(** The [src] of an external import map: the tag is [script], the [type]
    attribute is present and equal to [importmap], and [src] is present. *)
Definition external_import_map (el : Element) : option string :=
  if String.eqb (tagName el) "script" then
    match getAttribute el "type" with
    | Some t => if String.eqb t "importmap" then getAttribute el "src" else None
    | None => None
    end
  else None.

(** The path resolver of the specification. *)
Definition resolved_path (servedRootPath requestingDocumentPath src : string) : string :=
  if Path.isAbsolute src then Path.join [servedRootPath; src]
  else Path.resolve process_cwd [Path.dirname requestingDocumentPath; src].

(** The rewritten element: its first [src] gone, the serialized document,
    written as text, as content. *)
Definition inlined_element (tag : string) (attrs : list (string * string))
    (document : json) : node :=
  Elem tag (remove_first "src" attrs) [Text (escape_text (JSON_stringify document))].


(** The number of [src] attributes among the attributes of an element. *)
Definition src_attributes (attrs : list (string * string)) : nat :=
  List.length (List.filter (has_name "src") attrs).

(** No external import map of the document has its [src] written twice. *)
Fixpoint single_src (n : node) : bool :=
  match n with
  | Text _ => true
  | Elem tag attrs children =>
      match external_import_map (mkElement tag attrs None) with
      | Some _ => Nat.leb (src_attributes attrs) 1
      | None =>
          (fix each (l : list node) : bool :=
             match l with
             | [] => true
             | c :: l' => single_src c && each l'
             end) children
      end
  end.

Fixpoint single_src_all (l : list node) : bool :=
  match l with
  | [] => true
  | c :: l' => single_src c && single_src_all l'
  end.

(** The document with every external import map replaced by the module
    that [modules] holds for its resolved path, everything else as it
    is; [None] when a module is missing. *)
Fixpoint inlined (served html : string) (modules : gmap string json) (n : node)
    : option node :=
  match n with
  | Text data => Some (Text data)
  | Elem tag attrs children =>
      match external_import_map (mkElement tag attrs None) with
      | Some src =>
          match modules !! resolved_path served html src with
          | Some document => Some (inlined_element tag attrs document)
          | None => None
          end
      | None =>
          match
            (fix each (l : list node) : option (list node) :=
               match l with
               | [] => Some []
               | c :: l' =>
                   match inlined served html modules c, each l' with
                   | Some c', Some l'' => Some (c' :: l'')
                   | _, _ => None
                   end
               end) children
          with
          | Some children' => Some (Elem tag attrs children')
          | None => None
          end
      end
  end.

Fixpoint inlined_all (served html : string) (modules : gmap string json)
    (l : list node) : option (list node) :=
  match l with
  | [] => Some []
  | c :: l' =>
      match inlined served html modules c, inlined_all served html modules l' with
      | Some c', Some l'' => Some (c' :: l'')
      | _, _ => None
      end
  end.

(** The [src] values of the external import maps of a document, in the
    order in which the engine meets them. *)
Fixpoint external_sources (n : node) : list string :=
  match n with
  | Text _ => []
  | Elem tag attrs children =>
      match external_import_map (mkElement tag attrs None) with
      | Some src => [src]
      | None =>
          (fix each (l : list node) : list string :=
             match l with
             | [] => []
             | c :: l' => (external_sources c ++ each l')%list
             end) children
      end
  end.

Fixpoint external_sources_all (l : list node) : list string :=
  match l with
  | [] => []
  | c :: l' => (external_sources c ++ external_sources_all l')%list
  end.

(** The paths a log says were imported, and those it says were read. *)
Definition imported_paths (events : list Event) : list string :=
  List.flat_map (fun e => match e with Imported p => [p] | _ => [] end) events.

Definition read_paths (events : list Event) : list string :=
  List.flat_map (fun e => match e with FileRead p => [p] | _ => [] end) events.

(** What is left of a body once it was read: a stream has no chunk left. *)
Definition consumed (b : Body) : Body :=
  match b with
  | BReadStream stream => BReadStream (mkReadStream [] (broken stream))
  | _ => b
  end.

(** What a client would receive from a body: its bytes. *)
Definition body_bytes (b : Body) : list byte :=
  match b with
  | BString text => utf8_encode text
  | BUint8Array buffer => buffer
  | BReadStream stream => List.concat (unread stream)
  | BOther _ => []
  end.

(** The loader, on the disk of [w], loads [document] for [path]. *)
Definition loadable (w : World) (path : string) (document : json) : Prop :=
  module_load (files w) path = Loaded document.

(** The loader, on the disk of [w], fails for [path]: it finds nothing to
    load, or fails to load what it finds. *)
Definition unloadable (w : World) (path : string) : Prop :=
  module_load (files w) path = Unresolved \/ module_load (files w) path = Unloadable.

(** From [w] to [w']: no file is touched, no module is lost or changed, and
    a new module is what the loader loads for it. *)
Record grows (w w' : World) : Prop := mkGrows {
  grows_files : files w' = files w;
  grows_keeps : forall path document,
      moduleMap w !! path = Some document -> moduleMap w' !! path = Some document;
  grows_new : forall path document,
      moduleMap w' !! path = Some document ->
      moduleMap w !! path = Some document \/ loadable w path document
}.

(** The failures of an import. *)
Definition reference_failure (e : Error) : Prop :=
  exists path, e = ReferenceLoadFailure path \/ e = ReferenceParseFailure path.

(** [options.shouldRun?.(ctx) ?? true], as a value. *)
Definition runs (options : MiddlewareOptions) (c : Context) : bool :=
  match shouldRun options with
  | None => true
  | Some f => f c
  end.

(** The state once the run-predicate was consulted: the call is on record
    when there is a predicate to call. *)
Definition consulted (options : MiddlewareOptions) (st : State) : State :=
  match shouldRun options with
  | None => st
  | Some _ =>
      mkState (ctx st)
              (mkWorld (files (world st)) (moduleMap (world st))
                       (log (world st) ++ [ShouldRunCalled]))
  end.

(** The path of the requested document, as the middleware computes it. *)
Definition requested_document (options : MiddlewareOptions) (c : Context) : string :=
  Path.join [servedDirectoryAbsolutePath options;
             getFilePathOfRequestUrl options (request_url c)].

(** The bytes that the dispatcher hands to the transform for a body, when
    it gets that far. *)
Definition transform_input (b : Body) : option (list byte) :=
  match b with
  | BString text => Some (utf8_encode text)
  | BUint8Array buffer => Some buffer
  | BReadStream stream =>
      if broken stream then None
      else Some (utf8_encode (utf8_decode (List.concat (unread stream))))
  | BOther _ => None
  end.

End Specification.

(* ===================================================================== *)
(** * A small host, to run the program on concrete requests *)
(* ===================================================================== *)

(** Text is held as its UTF-8 bytes, so the codec is the change of
    container; a JSON value is held as its compact text; the HTML engine
    writes elements as [<tag name="value">...</tag>] and reads back the
    documents of [corpus]; the loader knows the module sources of
    [module_sources]. *)
Module Demo.

Definition double_quote : ascii := "034"%char.

(** The text with every ['] turned into a double quote. *)
Fixpoint quoted (s : string) : string :=
  match s with
  | EmptyString => EmptyString
  | String c s' =>
      String (if Ascii.eqb c "'"%char then double_quote else c) (quoted s')
  end.

Definition module_sources : list (string * string) :=
  [ (quoted "{'imports':{'x':'./x.js'}}", quoted "{'imports':{'x':'./x.js'}}");
    (quoted "{ 'imports': { 'x': './x.js' } }", quoted "{'imports':{'x':'./x.js'}}");
    (quoted "{'imports':{'x':'./y.js'}}", quoted "{'imports':{'x':'./y.js'}}");
    (quoted "{'imports':{}}", quoted "{'imports':{}}");
    (quoted "{'imports':{'x':'./x.js?a&b'}}", quoted "{'imports':{'x':'./x.js?a&b'}}") ].

Definition parse (source : string) : option string :=
  match List.find (fun kv => String.eqb (fst kv) source) module_sources with
  | Some kv => Some (snd kv)
  | None => None
  end.

Definition ends_with (suffix s : string) : bool :=
  let n := String.length s in
  let m := String.length suffix in
  Nat.leb m n && String.eqb (String.substring (n - m) m s) suffix.

(** The demo loader.  A specifier is resolved to the file of that name or,
    failing that, to the file of that name with [.json] added; a [.json]
    file is parsed.  The demo disks hold no other kind of module. *)
Definition load_file (path source : string) : loading string :=
  if ends_with ".json" path then
    match parse source with
    | Some document => Loaded document
    | None => Unloadable
    end
  else Unloadable.

Definition load (disk : gmap string string) (specifier : string) : loading string :=
  match disk !! specifier with
  | Some source => load_file specifier source
  | None =>
      match disk !! (specifier ++ ".json") with
      | Some source => load_file (specifier ++ ".json") source
      | None => Unresolved
      end
  end.

Definition write_attribute (kv : string * string) : string :=
  " " ++ fst kv ++ "=" ++ String double_quote (snd kv ++ String double_quote EmptyString).

Fixpoint write_node (n : node) : string :=
  match n with
  | Text data => data
  | Elem tag attrs children =>
      "<" ++ tag ++ String.concat "" (List.map write_attribute attrs) ++ ">"
        ++ (fix each (l : list node) : string :=
              match l with
              | [] => ""
              | c :: l' => write_node c ++ each l'
              end) children
        ++ "</" ++ tag ++ ">"
  end.

Definition write_document (document : list node) : string :=
  String.concat "" (List.map write_node document).

Definition import_map_script (src : string) : node :=
  Elem "script" [("type", "importmap"); ("src", src)] [].

Definition page (scripts : list node) : list node :=
  [Elem "html" []
     [Elem "head" [] scripts;
      Elem "body" [("class", "app")] [Text "Hello "; Elem "b" [] [Text "world"]]]].

Definition inline_page : list node :=
  page [Elem "script" [("type", "importmap")] [Text (quoted "{'imports':{}}")]].

Definition relative_page : list node := page [import_map_script "../maps/m.json"].

Definition absolute_page : list node := page [import_map_script "/maps/m.json"].

Definition two_maps_page : list node :=
  page [import_map_script "/maps/m.json"; import_map_script "n.json"].

(** The page once its import map is inlined. *)
Definition inlined_page (content : string) : list node :=
  page [Elem "script" [("type", "importmap")] [Text content]].


Definition twice_page : list node :=
  page [Elem "script"
             [("type", "importmap"); ("src", "/maps/m.json"); ("src", "n.json")] []].

Definition twice_page_once : list node :=
  page [Elem "script" [("type", "importmap"); ("src", "n.json")]
             [Text (quoted "{'imports':{'x':'./x.js'}}")]].


Definition query_page : list node := page [import_map_script "/maps/q.json"].

Definition corpus : list (list node) :=
  [inline_page; relative_page; absolute_page; two_maps_page;
   inlined_page (quoted "{'imports':{'x':'./x.js'}}");
   inlined_page (quoted "{'imports':{'x':'./y.js'}}");
   twice_page; twice_page_once; query_page].

Definition read_document (input : list byte) : list node :=
  let text := string_of_list_byte input in
  match List.find (fun d => String.eqb (write_document d) text) corpus with
  | Some document => document
  | None => [Text text]
  end.

#[export] Instance runtime : Runtime := {|
  json := string;
  module_load := load;
  JSON_stringify := fun document => document;
  utf8_encode := list_byte_of_string;
  utf8_decode := string_of_list_byte;
  html_parse := read_document;
  html_serialize := fun document => list_byte_of_string (write_document document);
  type_is := String.eqb;
  process_cwd := "/srv"
|}.

Definition options : MiddlewareOptions :=
  mkOptions "/site" None (fun url => if String.eqb url "/" then "/index.html" else url).

(** The rest of the pipeline: it leaves a response behind. *)
Definition respond (body : Body) (type : string) : M State unit :=
  set_response_body body ;;; set_response_type type.

Definition serve (opts : MiddlewareOptions) (url : string) (body : Body)
    (type : string) (w : World) : outcome unit * State :=
  middleware opts (respond body type) (mkState (mkContext url (BOther None) "") w).

Definition disk (entries : list (string * string)) : gmap string string :=
  list_to_map entries.

Definition json_v1 : string := quoted "{ 'imports': { 'x': './x.js' } }".
Definition json_v2 : string := quoted "{'imports':{'x':'./y.js'}}".

Definition world0 : World :=
  mkWorld (disk [("/site/maps/m.json", json_v1); ("/site/pages/n.json", json_v2)]) ∅ [].

(** Another process rewrites or removes a file between two requests. *)
Definition write_file (path source : string) (w : World) : World :=
  mkWorld (<[path := source]> (files w)) (moduleMap w) (log w).

Definition remove_file (path : string) (w : World) : World :=
  mkWorld (delete path (files w)) (moduleMap w) (log w).

Definition html_text (document : list node) : string := write_document document.

Definition html_bytes (document : list node) : list byte :=
  list_byte_of_string (write_document document).

Definition map_path : string := "/site/maps/m.json".

Definition map_script : Element :=
  mkElement "script" [("type", "importmap"); ("src", "../maps/m.json")] None.

Definition inline_script : Element :=
  mkElement "script" [("type", "importmap")] None.

(** A first request for the page whose import map is [../maps/m.json]. *)
Definition first_visit : outcome unit * State :=
  serve options "/pages/a.html" (BString (html_text relative_page)) "text/html" world0.

(** The same request again, once the file of the import map was rewritten. *)
Definition visit_after_change : outcome unit * State :=
  serve options "/pages/a.html" (BString (html_text relative_page)) "text/html"
        (write_file map_path json_v2 (world (snd first_visit))).

(** The same request again, once the file of the import map was removed. *)
Definition visit_after_removal : outcome unit * State :=
  serve options "/pages/a.html" (BString (html_text relative_page)) "text/html"
        (remove_file map_path (world (snd first_visit))).

(** A fresh process with an empty disk, and a response streamed to it. *)
Definition empty_world : World := mkWorld ∅ ∅ [].

Definition page_stream : ReadStream :=
  mkReadStream [html_bytes relative_page] false.

Definition streamed_response : State :=
  mkState (mkContext "/pages/a.html" (BReadStream page_stream) "text/html") empty_world.

Definition html_response (body : Body) (w : World) : State :=
  mkState (mkContext "/pages/a.html" body "text/html") w.

End Demo.


(* ===================================================================== *)
(** * The example application *)
(* ===================================================================== *)

(** The configuration that the [hello-world] application passes to
    [createMiddleware]: the served directory is [./app] resolved against the
    directory of the application's file, there is no run-predicate, and the
    request for [/] is answered from [/index.html]. *)
Module App.

Definition getFilePathOfRequestUrl (initialRequestUrl : string) : string :=
  if String.eqb initialRequestUrl "/" then "/index.html" else initialRequestUrl.

Definition servedDirectoryAbsolutePath (cwd file : string) : string :=
  Path.resolve cwd [Path.dirname file; "./app"].

Definition options (cwd file : string) : MiddlewareOptions :=
  mkOptions (servedDirectoryAbsolutePath cwd file) None getFilePathOfRequestUrl.

End App.

(** The number of calls of the run-predicate that a log records. *)
Definition should_run_calls (events : list Event) : nat :=
  List.length
    (List.filter (fun e => match e with ShouldRunCalled => true | _ => false end)
                 events).

Section Outcomes.

Context {RT : Runtime}.

(** Where a failing walk stopped: at an external import map of the
    document, after importing those before it. *)
Definition stopped_at (served html : string) (sources : list string)
    (w : World) (e : Error) (w' : World) : Prop :=
  exists before path after,
    List.map (resolved_path served html) sources = (before ++ path :: after)%list
    /\ imported_paths (log w') = (imported_paths (log w) ++ before ++ [path])%list
    /\ (e = ReferenceLoadFailure path \/ e = ReferenceParseFailure path)
    /\ moduleMap w' !! path = None.

End Outcomes.

(** Responses and worlds for the further properties. *)
Module Cases.

Import Demo.

Definition broken_stream : ReadStream :=
  mkReadStream [html_bytes relative_page] true.

Definition broken_response : State :=
  html_response (BReadStream broken_stream) world0.

(** The same bytes, cut in two places. *)
Definition cut_early : ReadStream :=
  mkReadStream [list_byte_of_string "<p>"; list_byte_of_string "hi</p>"] false.

Definition cut_late : ReadStream :=
  mkReadStream [list_byte_of_string "<p>hi"; list_byte_of_string "</p>"] false.

Definition second_map_path : string := "/site/pages/n.json".

(** The disk of [world0] without the file of the second import map. *)
Definition world_without_second_map : World := remove_file second_map_path world0.

(** The world after a first transform of the page, its file then removed. *)
Definition world_after_first_transform : World :=
  snd (transformResponse "/site" "/site/pages/a.html" (html_bytes relative_page) world0).

Definition world_after_removal : World :=
  remove_file map_path world_after_first_transform.



(** A first request for the page, the state it leaves, and the world once
    the file of the import map was rewritten. *)
Definition first_request : State :=
  html_response (BString (html_text relative_page)) world0.

Definition after_first_request : State := snd (after_next options first_request).

Definition changed_world : World :=
  write_file map_path json_v2 (world after_first_request).

End Cases.

(* ===================================================================== *)
(** * The path functions on examples *)
(* ===================================================================== *)

Example path_join_1 : Path.join ["/site"; "/pages/a.html"] = "/site/pages/a.html".
Proof. reflexivity. Qed.
Example path_join_2 : Path.join ["/site/"; "/maps//m.json"] = "/site/maps/m.json".
Proof. reflexivity. Qed.
Example path_join_3 : Path.join ["/site"; "/../../x/"] = "/x/".
Proof. reflexivity. Qed.
Example path_dirname_1 : Path.dirname "/site/pages/a.html" = "/site/pages".
Proof. reflexivity. Qed.
Example path_dirname_2 : Path.dirname "/a.html" = "/".
Proof. reflexivity. Qed.
Example path_dirname_3 : Path.dirname "a.html" = ".".
Proof. reflexivity. Qed.
Example path_resolve_1 :
  Path.resolve "/srv" ["/site/pages"; "../maps/m.json"] = "/site/maps/m.json".
Proof. reflexivity. Qed.
Example path_resolve_2 : Path.resolve "/srv" ["pages"; "./m.json"] = "/srv/pages/m.json".
Proof. reflexivity. Qed.
Example path_resolve_3 : Path.resolve "/srv" ["/a/b"; ""] = "/a/b".
Proof. reflexivity. Qed.

(* ===================================================================== *)
(** * The engine's walk and the handler *)
(* ===================================================================== *)

(** Induction on documents: the children of an element satisfy the
    predicate. *)
Lemma node_ind (P : node -> Prop) :
  (forall data, P (Text data)) ->
  (forall tag attrs children, Forall P children -> P (Elem tag attrs children)) ->
  forall n, P n.
Proof.
  intros HText HElem.
  fix IH 1.
  intros [data | tag attrs children].
  - apply HText.
  - apply HElem.
    induction children as [| c children IHc].
    + constructor.
    + constructor; [apply IH | exact IHc].
Qed.

Section Walk.

Context {RT : Runtime}.

Lemma bind_Ok {S A B} (m : M S A) (k : A -> M S B) s a s' :
  m s = (Ok a, s') -> bind m k s = k a s'.
Proof. intros E. unfold bind. rewrite E. reflexivity. Qed.

Lemma bind_Throw {S A B} (m : M S A) (k : A -> M S B) s e s' :
  m s = (Throw e, s') -> bind m k s = (Throw e, s').
Proof. intros E. unfold bind. rewrite E. reflexivity. Qed.

(** A bind that returns went through both of its halves. *)
Lemma bind_inv_Ok {S A B} (m : M S A) (k : A -> M S B) s b s2 :
  bind m k s = (Ok b, s2) ->
  exists a s1, m s = (Ok a, s1) /\ k a s1 = (Ok b, s2).
Proof.
  unfold bind. destruct (m s) as [[a | e] s1]; intros E.
  - exists a, s1. split; [reflexivity | exact E].
  - discriminate E.
Qed.

(** A bind that throws failed in the first half, or in the second. *)
Lemma bind_inv_Throw {S A B} (m : M S A) (k : A -> M S B) s e s2 :
  bind m k s = (Throw e, s2) ->
  m s = (Throw e, s2) \/ exists a s1, m s = (Ok a, s1) /\ k a s1 = (Throw e, s2).
Proof.
  unfold bind. destruct (m s) as [[a | e'] s1]; intros E.
  - right. exists a, s1. split; [reflexivity | exact E].
  - left. injection E as -> ->. reflexivity.
Qed.

Lemma rewrite_node_Elem handler tag attrs children :
  rewrite_node handler (Elem tag attrs children) =
  (el <- handler (mkElement tag attrs None) ;;
   match innerContent el with
   | Some content => ret (Elem (tagName el) (attributes el) [Text content])
   | None =>
       children' <- rewrite_nodes handler children ;;
       ret (Elem (tagName el) (attributes el) children')
   end).
Proof.
  assert (E : forall l,
             (fix each (l : list node) : M World (list node) :=
                match l with
                | [] => ret []
                | c :: l' =>
                    c' <- rewrite_node handler c ;;
                    l'' <- each l' ;;
                    ret (c' :: l'')
                end) l = rewrite_nodes handler l).
  { induction l as [| c l IHl]; simpl; [reflexivity | rewrite IHl; reflexivity]. }
  simpl. rewrite E. reflexivity.
Qed.

Lemma inlined_Elem served html modules tag attrs children :
  inlined served html modules (Elem tag attrs children) =
  match external_import_map (mkElement tag attrs None) with
  | Some src =>
      match modules !! resolved_path served html src with
      | Some document => Some (inlined_element tag attrs document)
      | None => None
      end
  | None =>
      match inlined_all served html modules children with
      | Some children' => Some (Elem tag attrs children')
      | None => None
      end
  end.
Proof.
  assert (E : forall l,
             (fix each (l : list node) : option (list node) :=
                match l with
                | [] => Some []
                | c :: l' =>
                    match inlined served html modules c, each l' with
                    | Some c', Some l'' => Some (c' :: l'')
                    | _, _ => None
                    end
                end) l = inlined_all served html modules l).
  { induction l as [| c l IHl]; simpl; [reflexivity | rewrite IHl; reflexivity]. }
  simpl. rewrite E. reflexivity.
Qed.

Lemma external_sources_Elem tag attrs children :
  external_sources (Elem tag attrs children) =
  match external_import_map (mkElement tag attrs None) with
  | Some src => [src]
  | None => external_sources_all children
  end.
Proof.
  assert (E : forall l,
             (fix each (l : list node) : list string :=
                match l with
                | [] => []
                | c :: l' => (external_sources c ++ each l')%list
                end) l = external_sources_all l).
  { induction l as [| c l IHl]; simpl; [reflexivity | rewrite IHl; reflexivity]. }
  simpl. rewrite E. reflexivity.
Qed.

(** ** The handler, case by case *)

Lemma handler_skip served html el w :
  external_import_map el = None ->
  element_handler served html el w = (Ok el, w).
Proof.
  unfold external_import_map, element_handler.
  destruct (String.eqb (tagName el) "script"); simpl; [| reflexivity].
  destruct (getAttribute el "type") as [t |]; [| reflexivity].
  destruct (String.eqb t "importmap"); simpl; [| reflexivity].
  intros ->. reflexivity.
Qed.

Lemma handler_match served html el src w :
  external_import_map el = Some src ->
  element_handler served html el w =
  (document <- import_json (resolved_path served html src) ;;
   ret (setInnerContent (removeAttribute el "src") (JSON_stringify document))) w.
Proof.
  unfold external_import_map, element_handler, resolved_path.
  destruct (String.eqb (tagName el) "script"); simpl; [| discriminate].
  destruct (getAttribute el "type") as [t |]; [| discriminate].
  destruct (String.eqb t "importmap"); simpl; [| discriminate].
  intros ->. reflexivity.
Qed.

(** The three ways out of [external_import_map el = None]. *)
Lemma external_import_map_None el :
  external_import_map el = None <->
  tagName el <> "script"
  \/ getAttribute el "type" = None
  \/ (exists t, getAttribute el "type" = Some t /\ t <> "importmap")
  \/ getAttribute el "src" = None.
Proof.
  unfold external_import_map.
  destruct (String.eqb_spec (tagName el) "script") as [Etag | Ntag].
  - destruct (getAttribute el "type") as [t |] eqn:Etype.
    + destruct (String.eqb_spec t "importmap") as [Et | Nt].
      * split; [intros H; right; right; right; exact H |].
        intros [H | [H | [[t' [H Ht']] | H]]];
          [contradiction | discriminate | congruence | exact H].
      * split; [intros _; right; right; left; exists t; split; [reflexivity | exact Nt] |].
        reflexivity.
    + split; [intros _; right; left; reflexivity | reflexivity].
  - split; [intros _; left; exact Ntag | reflexivity].
Qed.

Lemma external_import_map_Some el src :
  external_import_map el = Some src <->
  tagName el = "script"
  /\ getAttribute el "type" = Some "importmap"
  /\ getAttribute el "src" = Some src.
Proof.
  unfold external_import_map.
  destruct (String.eqb_spec (tagName el) "script") as [Etag | Ntag].
  - destruct (getAttribute el "type") as [t |] eqn:Etype.
    + destruct (String.eqb_spec t "importmap") as [Et | Nt].
      * subst t. split; [intros H; repeat split; [exact Etag | exact H] |].
        intros [_ [_ H]]. exact H.
      * split; [discriminate | intros [_ [H _]]; congruence].
    + split; [discriminate | intros [_ [H _]]; discriminate].
  - split; [discriminate | intros [H _]; contradiction].
Qed.

(** ** The import, case by case *)

Lemma import_json_cached path w document :
  moduleMap w !! path = Some document ->
  import_json path w =
  (Ok document, mkWorld (files w) (moduleMap w) (log w ++ [Imported path])).
Proof.
  intros E. unfold import_json, bind, emit. simpl. rewrite E. reflexivity.
Qed.

Lemma import_json_unreadable path w :
  moduleMap w !! path = None ->
  module_load (files w) path = Unresolved ->
  import_json path w =
  (Throw (ReferenceLoadFailure path),
   mkWorld (files w) (moduleMap w) (log w ++ [Imported path; FileRead path])).
Proof.
  intros E F. unfold import_json, bind, emit. simpl. rewrite E. simpl. rewrite F.
  rewrite <- app_assoc. reflexivity.
Qed.

Lemma import_json_invalid path w :
  moduleMap w !! path = None ->
  module_load (files w) path = Unloadable ->
  import_json path w =
  (Throw (ReferenceParseFailure path),
   mkWorld (files w) (moduleMap w) (log w ++ [Imported path; FileRead path])).
Proof.
  intros E F. unfold import_json, bind, emit. simpl. rewrite E. simpl. rewrite F.
  rewrite <- app_assoc. reflexivity.
Qed.

Lemma import_json_loaded path w document :
  moduleMap w !! path = None ->
  module_load (files w) path = Loaded document ->
  import_json path w =
  (Ok document,
   mkWorld (files w) (<[path := document]> (moduleMap w))
           (log w ++ [Imported path; FileRead path])).
Proof.
  intros E F. unfold import_json, bind, emit. simpl. rewrite E. simpl. rewrite F.
  rewrite <- app_assoc. reflexivity.
Qed.

End Walk.

(* ===================================================================== *)
(** * What a walk does to the world *)
(* ===================================================================== *)

Section Invariants.

Context {RT : Runtime}.

Lemma grows_refl w : grows w w.
Proof. split; [reflexivity | auto | auto]. Qed.

Lemma grows_relog w events : grows w (mkWorld (files w) (moduleMap w) events).
Proof. split; simpl; [reflexivity | auto | auto]. Qed.

Lemma grows_trans w1 w2 w3 : grows w1 w2 -> grows w2 w3 -> grows w1 w3.
Proof.
  intros [F12 K12 N12] [F23 K23 N23]. split.
  - congruence.
  - auto.
  - intros path document H. destruct (N23 _ _ H) as [H2 | Hl].
    + auto.
    + right. unfold loadable in *. congruence.
Qed.

Lemma grows_unloadable w w' path :
  grows w w' -> unloadable w path -> moduleMap w !! path = None ->
  unloadable w' path /\ moduleMap w' !! path = None.
Proof.
  intros [F K N] U E. split.
  - unfold unloadable in *. rewrite F. exact U.
  - destruct (moduleMap w' !! path) as [document |] eqn:E'; [| reflexivity].
    destruct (N _ _ E') as [H | Hl]; [congruence |].
    unfold loadable in Hl. destruct U as [U | U]; congruence.
Qed.

(** The four outcomes of an import. *)
Lemma import_json_cases path w :
  (exists document, moduleMap w !! path = Some document)
  \/ (moduleMap w !! path = None /\ module_load (files w) path = Unresolved)
  \/ (moduleMap w !! path = None /\ module_load (files w) path = Unloadable)
  \/ (exists document, moduleMap w !! path = None
                        /\ module_load (files w) path = Loaded document).
Proof.
  destruct (moduleMap w !! path) as [document |]; [left; eauto |].
  destruct (module_load (files w) path) as [document | |] eqn:L.
  - right; right; right. exists document. auto.
  - right; left. auto.
  - right; right; left. auto.
Qed.

Lemma import_json_grows path w r w' :
  import_json path w = (r, w') -> grows w w'.
Proof.
  destruct (import_json_cases path w)
    as [[document E] | [[E F] | [[E P] | [document [E P]]]]].
  - rewrite (import_json_cached _ _ _ E). intros [= _ <-]. apply grows_relog.
  - rewrite (import_json_unreadable _ _ E F). intros [= _ <-]. apply grows_relog.
  - rewrite (import_json_invalid _ _ E P). intros [= _ <-]. apply grows_relog.
  - rewrite (import_json_loaded _ _ _ E P). intros [= _ <-]. split; simpl.
    + reflexivity.
    + intros q d H. destruct (decide (path = q)) as [-> | Hne].
      * congruence.
      * rewrite lookup_insert_ne by exact Hne. exact H.
    + intros q d H. destruct (decide (path = q)) as [<- | Hne].
      * rewrite lookup_insert_eq in H. injection H as <-.
        right. exact P.
      * rewrite lookup_insert_ne in H by exact Hne. left. exact H.
Qed.

(** An import that returns leaves the module it returned in the map. *)
Lemma import_json_Ok path w document w' :
  import_json path w = (Ok document, w') ->
  moduleMap w' !! path = Some document
  /\ (moduleMap w !! path = Some document \/
      (moduleMap w !! path = None /\ loadable w path document)).
Proof.
  destruct (import_json_cases path w)
    as [[d E] | [[E F] | [[E P] | [d [E P]]]]].
  - rewrite (import_json_cached _ _ _ E). intros [= <- <-]. simpl. auto.
  - rewrite (import_json_unreadable _ _ E F). discriminate.
  - rewrite (import_json_invalid _ _ E P). discriminate.
  - rewrite (import_json_loaded _ _ _ E P). intros [= <- <-]. simpl. split.
    + apply lookup_insert_eq.
    + right. split; [exact E | exact P].
Qed.

(** An import that throws met a file it could not load. *)
Lemma import_json_Throw path w e w' :
  import_json path w = (Throw e, w') ->
  moduleMap w !! path = None /\ unloadable w path
  /\ (e = ReferenceLoadFailure path \/ e = ReferenceParseFailure path).
Proof.
  destruct (import_json_cases path w)
    as [[d E] | [[E F] | [[E P] | [d [E P]]]]].
  - rewrite (import_json_cached _ _ _ E). discriminate.
  - rewrite (import_json_unreadable _ _ E F). intros [= <- <-].
    split; [exact E | split; [left; exact F | left; reflexivity]].
  - rewrite (import_json_invalid _ _ E P). intros [= <- <-].
    split; [exact E | split; [right; exact P | right; reflexivity]].
  - rewrite (import_json_loaded _ _ _ E P). discriminate.
Qed.

(** An import of a module that is not in the map and cannot be loaded
    throws. *)
Lemma import_json_fails path w :
  moduleMap w !! path = None -> unloadable w path ->
  exists e w', import_json path w = (Throw e, w')
               /\ (e = ReferenceLoadFailure path \/ e = ReferenceParseFailure path).
Proof.
  intros E [F | P].
  - rewrite (import_json_unreadable _ _ E F). eauto.
  - rewrite (import_json_invalid _ _ E P). eauto.
Qed.

Lemma handler_grows served html el w r w' :
  element_handler served html el w = (r, w') -> grows w w'.
Proof.
  destruct (external_import_map el) as [src |] eqn:E.
  - rewrite (handler_match _ _ _ _ _ E). unfold bind.
    destruct (import_json (resolved_path served html src) w) as [[d | e] w1] eqn:I;
      intros [= _ <-]; exact (import_json_grows _ _ _ _ I).
  - rewrite (handler_skip _ _ _ _ E). intros [= _ <-]. apply grows_refl.
Qed.

(** The content of an element is replaced exactly when it is an external
    import map and its import returned. *)
Lemma handler_Ok served html tag attrs w el w' :
  element_handler served html (mkElement tag attrs None) w = (Ok el, w') ->
  match external_import_map (mkElement tag attrs None) with
  | None => el = mkElement tag attrs None /\ w' = w
  | Some src =>
      exists document,
        import_json (resolved_path served html src) w = (Ok document, w')
        /\ el = mkElement tag (remove_first "src" attrs)
                          (Some (escape_text (JSON_stringify document)))
  end.
Proof.
  destruct (external_import_map (mkElement tag attrs None)) as [src |] eqn:E.
  - rewrite (handler_match _ _ _ _ _ E). intros H.
    apply bind_inv_Ok in H as [document [w1 [I R]]].
    injection R as <- <-. exists document. split; [exact I | reflexivity].
  - rewrite (handler_skip _ _ _ _ E). intros [= <- <-]. auto.
Qed.

Lemma rewrite_node_grows served html n :
  forall w r w', rewrite_node (element_handler served html) n w = (r, w') -> grows w w'.
Proof.
  induction n as [data | tag attrs children IH] using node_ind; intros w r w'.
  - simpl. intros [= _ <-]. apply grows_refl.
  - assert (IHl : forall w r w',
               rewrite_nodes (element_handler served html) children w = (r, w') ->
               grows w w').
    { clear tag attrs. induction IH as [| c l Hc _ IHl]; intros w0 r0 w0'; simpl.
      - intros [= _ <-]. apply grows_refl.
      - unfold bind at 1.
        destruct (rewrite_node (element_handler served html) c w0) as [[c' | e] w1] eqn:Ec.
        + apply Hc in Ec. unfold bind.
          destruct (rewrite_nodes (element_handler served html) l w1)
            as [[l' | e] w2] eqn:El; intros [= _ <-];
            apply IHl in El; eapply grows_trans; eauto.
        + intros [= _ <-]. eapply Hc; eauto. }
    rewrite rewrite_node_Elem. unfold bind at 1.
    destruct (element_handler served html (mkElement tag attrs None) w)
      as [[el | e] w1] eqn:Eh.
    + apply handler_grows in Eh.
      destruct (innerContent el) as [content |].
      * intros [= _ <-]. exact Eh.
      * unfold bind.
        destruct (rewrite_nodes (element_handler served html) children w1)
          as [[l' | e] w2] eqn:El; intros [= _ <-];
          apply IHl in El; eapply grows_trans; eauto.
    + intros [= _ <-]. eapply handler_grows; eauto.
Qed.

Lemma rewrite_nodes_grows served html l :
  forall w r w', rewrite_nodes (element_handler served html) l w = (r, w') -> grows w w'.
Proof.
  induction l as [| c l IHl]; intros w r w'; simpl.
  - intros [= _ <-]. apply grows_refl.
  - unfold bind at 1.
    destruct (rewrite_node (element_handler served html) c w) as [[c' | e] w1] eqn:Ec.
    + apply rewrite_node_grows in Ec. unfold bind.
      destruct (rewrite_nodes (element_handler served html) l w1)
        as [[l' | e] w2] eqn:El; intros [= _ <-];
        apply IHl in El; eapply grows_trans; eauto.
    + intros [= _ <-]. eapply rewrite_node_grows; eauto.
Qed.

End Invariants.

(* ===================================================================== *)
(** * The walk against the specification's pure functions *)
(* ===================================================================== *)

Section Refinement.

Context {RT : Runtime}.

Lemma getAttribute_removed tag attrs content :
  (src_attributes attrs <= 1)%nat ->
  getAttribute (mkElement tag (remove_first "src" attrs) content) "src" = None.
Proof.
  unfold getAttribute, src_attributes. simpl.
  induction attrs as [| kv attrs IH]; simpl; [reflexivity |].
  destruct (has_name "src" kv) eqn:E; simpl.
  - intros H.
    destruct (List.find (has_name "src") attrs) as [kv' |] eqn:F; [| reflexivity].
    apply List.find_some in F as [Hin Hname].
    assert (Hpos : (0 < List.length (List.filter (has_name "src") attrs))%nat).
    { assert (Hf : In kv' (List.filter (has_name "src") attrs)).
      { apply List.filter_In. auto. }
      destruct (List.filter (has_name "src") attrs); [destruct Hf | simpl; lia]. }
    lia.
  - rewrite E. exact IH.
Qed.


(** A rewritten element whose [src] was written once is no external import
    map any more. *)
Lemma inlined_element_settled tag attrs :
  (src_attributes attrs <= 1)%nat ->
  external_import_map (mkElement tag (remove_first "src" attrs) None) = None.
Proof.
  intros H. apply external_import_map_None. right; right; right.
  apply getAttribute_removed. exact H.
Qed.


Lemma inlined_mono served html (modules modules' : gmap string json) :
  (forall path document,
      modules !! path = Some document -> modules' !! path = Some document) ->
  forall n n', inlined served html modules n = Some n' ->
               inlined served html modules' n = Some n'.
Proof.
  intros Hsub.
  induction n as [data | tag attrs children IH] using node_ind; intros n'.
  - simpl. auto.
  - rewrite !inlined_Elem.
    destruct (external_import_map (mkElement tag attrs None)) as [src |].
    + destruct (modules !! resolved_path served html src) as [d |] eqn:E;
        [| discriminate].
      rewrite (Hsub _ _ E). auto.
    + assert (IHl : forall l', inlined_all served html modules children = Some l' ->
                               inlined_all served html modules' children = Some l').
      { clear n'. induction IH as [| c l Hc _ IHl]; intros l'; simpl; [auto |].
        destruct (inlined served html modules c) as [c' |] eqn:Ec; [| discriminate].
        destruct (inlined_all served html modules l) as [l'' |] eqn:El; [| discriminate].
        rewrite (Hc _ eq_refl), (IHl _ eq_refl). auto. }
      destruct (inlined_all served html modules children) as [l' |]; [| discriminate].
      rewrite (IHl _ eq_refl). auto.
Qed.

Lemma inlined_all_mono served html (modules modules' : gmap string json) :
  (forall path document,
      modules !! path = Some document -> modules' !! path = Some document) ->
  forall l l', inlined_all served html modules l = Some l' ->
               inlined_all served html modules' l = Some l'.
Proof.
  intros Hsub. induction l as [| c l IHl]; intros l'; simpl; [auto |].
  destruct (inlined served html modules c) as [c' |] eqn:Ec; [| discriminate].
  destruct (inlined_all served html modules l) as [l'' |] eqn:El; [| discriminate].
  rewrite (inlined_mono _ _ _ _ Hsub _ _ Ec), (IHl _ eq_refl). auto.
Qed.

(** The list step shared by the proofs about a returning walk. *)
Lemma rewrite_nodes_inlined_step served html c l w l0 w' :
  (forall w n' w',
      rewrite_node (element_handler served html) c w = (Ok n', w') ->
      inlined served html (moduleMap w') c = Some n') ->
  (forall w l' w',
      rewrite_nodes (element_handler served html) l w = (Ok l', w') ->
      inlined_all served html (moduleMap w') l = Some l') ->
  rewrite_nodes (element_handler served html) (c :: l) w = (Ok l0, w') ->
  inlined_all served html (moduleMap w') (c :: l) = Some l0.
Proof.
  intros Hc Hl H. simpl in H.
  apply bind_inv_Ok in H as [c' [w1 [Ec H]]].
  apply bind_inv_Ok in H as [l' [w2 [El H]]].
  injection H as <- <-. simpl.
  pose proof (rewrite_nodes_grows _ _ _ _ _ _ El) as G.
  rewrite (inlined_mono _ _ _ _ (grows_keeps _ _ G) _ _ (Hc _ _ _ Ec)).
  rewrite (Hl _ _ _ El). reflexivity.
Qed.

(** A walk that returns has produced the document that the specification
    describes, read against the module map it leaves behind. *)
Lemma rewrite_node_inlined served html n :
  forall w n' w',
    rewrite_node (element_handler served html) n w = (Ok n', w') ->
    inlined served html (moduleMap w') n = Some n'.
Proof.
  induction n as [data | tag attrs children IH] using node_ind; intros w n' w'.
  - simpl. intros [= <- _]. reflexivity.
  - assert (IHl : forall w l' w',
               rewrite_nodes (element_handler served html) children w = (Ok l', w') ->
               inlined_all served html (moduleMap w') children = Some l').
    { clear tag attrs n' w w'. induction IH as [| c l Hc _ IHl]; intros w l' w'.
      - simpl. intros [= <- _]. reflexivity.
      - apply rewrite_nodes_inlined_step; assumption. }
    rewrite rewrite_node_Elem, inlined_Elem. intros H.
    apply bind_inv_Ok in H as [el [w1 [Eh H]]].
    apply handler_Ok in Eh.
    destruct (external_import_map (mkElement tag attrs None)) as [src |].
    + destruct Eh as [document [I ->]]. simpl in H. injection H as <- <-.
      destruct (import_json_Ok _ _ _ _ I) as [-> _]. reflexivity.
    + destruct Eh as [-> ->]. simpl in H.
      apply bind_inv_Ok in H as [l' [w2 [El H]]]. injection H as <- <-.
      rewrite (IHl _ _ _ El). reflexivity.
Qed.

Lemma rewrite_nodes_inlined served html l :
  forall w l' w',
    rewrite_nodes (element_handler served html) l w = (Ok l', w') ->
    inlined_all served html (moduleMap w') l = Some l'.
Proof.
  induction l as [| c l IHl]; intros w l' w'.
  - simpl. intros [= <- _]. reflexivity.
  - apply rewrite_nodes_inlined_step; [apply rewrite_node_inlined | exact IHl].
Qed.

(** A document without external import maps goes through the walk as it
    is, and the world with it. *)
Lemma rewrite_node_untouched served html n :
  external_sources n = [] ->
  forall w, rewrite_node (element_handler served html) n w = (Ok n, w).
Proof.
  induction n as [data | tag attrs children IH] using node_ind; intros Hs w.
  - reflexivity.
  - rewrite external_sources_Elem in Hs. rewrite rewrite_node_Elem.
    destruct (external_import_map (mkElement tag attrs None)) as [src |] eqn:E;
      [discriminate |].
    rewrite (bind_Ok _ _ _ _ _ (handler_skip served html _ w E)). simpl.
    assert (IHl : forall w,
               rewrite_nodes (element_handler served html) children w = (Ok children, w)).
    { clear E tag attrs w. induction IH as [| c l Hc _ IHl]; intros w; [reflexivity |].
      simpl in Hs. apply app_eq_nil in Hs as [Hs1 Hs2]. simpl.
      rewrite (bind_Ok _ _ _ _ _ (Hc Hs1 w)).
      rewrite (bind_Ok _ _ _ _ _ (IHl Hs2 w)). reflexivity. }
    rewrite (bind_Ok _ _ _ _ _ (IHl w)). reflexivity.
Qed.

Lemma rewrite_nodes_untouched served html l :
  external_sources_all l = [] ->
  forall w, rewrite_nodes (element_handler served html) l w = (Ok l, w).
Proof.
  induction l as [| c l IHl]; intros Hs w; [reflexivity |].
  simpl in Hs. apply app_eq_nil in Hs as [Hs1 Hs2]. simpl.
  rewrite (bind_Ok _ _ _ _ _ (rewrite_node_untouched served html c Hs1 w)).
  rewrite (bind_Ok _ _ _ _ _ (IHl Hs2 w)). reflexivity.
Qed.

Lemma single_src_Elem tag attrs children :
  single_src (Elem tag attrs children) =
  match external_import_map (mkElement tag attrs None) with
  | Some _ => Nat.leb (src_attributes attrs) 1
  | None => single_src_all children
  end.
Proof.
  assert (E : forall l,
             (fix each (l : list node) : bool :=
                match l with
                | [] => true
                | c :: l' => single_src c && each l'
                end) l = single_src_all l).
  { induction l as [| c l IHl]; simpl; [reflexivity | rewrite IHl; reflexivity]. }
  simpl. rewrite E. reflexivity.
Qed.

(** The document that the specification describes holds no external import
    map, when none of those it had was written with two [src]. *)
Lemma inlined_settled served html modules n :
  single_src n = true ->
  forall n', inlined served html modules n = Some n' -> external_sources n' = [].
Proof.
  induction n as [data | tag attrs children IH] using node_ind; intros Hs n'.
  - simpl. intros [= <-]. reflexivity.
  - rewrite inlined_Elem. rewrite single_src_Elem in Hs.
    destruct (external_import_map (mkElement tag attrs None)) as [src |] eqn:E.
    + destruct (modules !! resolved_path served html src) as [d |]; [| discriminate].
      intros [= <-]. unfold inlined_element. rewrite external_sources_Elem.
      rewrite inlined_element_settled; [reflexivity |].
      apply Nat.leb_le. exact Hs.
    + assert (IHl : forall l', inlined_all served html modules children = Some l' ->
                               external_sources_all l' = []).
      { clear E n'. induction IH as [| c l Hc _ IHl]; intros l'; simpl.
        - intros [= <-]. reflexivity.
        - simpl in Hs. apply andb_prop in Hs as [Hs1 Hs2].
          destruct (inlined served html modules c) as [c' |] eqn:Ec; [| discriminate].
          destruct (inlined_all served html modules l) as [l'' |] eqn:El;
            [| discriminate].
          intros [= <-]. simpl.
          rewrite (Hc Hs1 _ eq_refl), (IHl Hs2 _ eq_refl). reflexivity. }
      destruct (inlined_all served html modules children) as [l' |] eqn:El;
        [| discriminate].
      intros [= <-]. rewrite external_sources_Elem, E. apply (IHl _ eq_refl).
Qed.

Lemma inlined_all_settled served html modules l :
  single_src_all l = true ->
  forall l', inlined_all served html modules l = Some l' -> external_sources_all l' = [].
Proof.
  induction l as [| c l IHl]; intros Hs l'; simpl.
  - intros [= <-]. reflexivity.
  - simpl in Hs. apply andb_prop in Hs as [Hs1 Hs2].
    destruct (inlined served html modules c) as [c' |] eqn:Ec; [| discriminate].
    destruct (inlined_all served html modules l) as [l'' |] eqn:El; [| discriminate].
    intros [= <-]. simpl.
    rewrite (inlined_settled _ _ _ _ Hs1 _ Ec), (IHl Hs2 _ eq_refl). reflexivity.
Qed.

(** The modules that the specification's document needs are in the map. *)
Lemma inlined_covers served html modules n :
  forall n', inlined served html modules n = Some n' ->
  forall path,
    In path (List.map (resolved_path served html) (external_sources n)) ->
    is_Some (modules !! path).
Proof.
  induction n as [data | tag attrs children IH] using node_ind; intros n'.
  - simpl. intros _ path [].
  - rewrite inlined_Elem, external_sources_Elem.
    destruct (external_import_map (mkElement tag attrs None)) as [src |] eqn:E.
    + destruct (modules !! resolved_path served html src) as [d |] eqn:L;
        [| discriminate].
      intros _ path [<- | []]. rewrite L. eauto.
    + assert (IHl : forall l', inlined_all served html modules children = Some l' ->
                 forall path,
                   In path (List.map (resolved_path served html)
                                     (external_sources_all children)) ->
                   is_Some (modules !! path)).
      { clear E n'. induction IH as [| c l Hc _ IHl]; intros l'; simpl.
        - intros _ path [].
        - destruct (inlined served html modules c) as [c' |] eqn:Ec; [| discriminate].
          destruct (inlined_all served html modules l) as [l'' |] eqn:El;
            [| discriminate].
          intros _ path Hin. rewrite List.map_app in Hin.
          apply in_app_or in Hin as [Hin | Hin]; [eapply Hc | eapply IHl]; eauto. }
      destruct (inlined_all served html modules children) as [l' |] eqn:El;
        [| discriminate].
      intros _. apply (IHl _ eq_refl).
Qed.

Lemma inlined_all_covers served html modules l :
  forall l', inlined_all served html modules l = Some l' ->
  forall path,
    In path (List.map (resolved_path served html) (external_sources_all l)) ->
    is_Some (modules !! path).
Proof.
  induction l as [| c l IHl]; intros l'; simpl.
  - intros _ path [].
  - destruct (inlined served html modules c) as [c' |] eqn:Ec; [| discriminate].
    destruct (inlined_all served html modules l) as [l'' |] eqn:El; [| discriminate].
    intros _ path Hin. rewrite List.map_app in Hin.
    apply in_app_or in Hin as [Hin | Hin];
      [eapply inlined_covers | eapply IHl]; eauto.
Qed.

End Refinement.

(* ===================================================================== *)
(** * Failing walks, and what a walk leaves in the log *)
(* ===================================================================== *)

Section Failures.

Context {RT : Runtime}.

Lemma handler_Throw served html el w e w' :
  element_handler served html el w = (Throw e, w') -> reference_failure e.
Proof.
  destruct (external_import_map el) as [src |] eqn:E.
  - rewrite (handler_match _ _ _ _ _ E). intros H.
    apply bind_inv_Throw in H as [H | [d [w1 [_ H]]]]; [| discriminate H].
    apply import_json_Throw in H as [_ [_ H]].
    exists (resolved_path served html src). exact H.
  - rewrite (handler_skip _ _ _ _ E). discriminate.
Qed.

(** A walk throws nothing but the failure of an import. *)
Lemma rewrite_node_Throw served html n :
  forall w e w',
    rewrite_node (element_handler served html) n w = (Throw e, w') ->
    reference_failure e.
Proof.
  induction n as [data | tag attrs children IH] using node_ind; intros w e w'.
  - simpl. discriminate.
  - assert (IHl : forall w e w',
               rewrite_nodes (element_handler served html) children w = (Throw e, w') ->
               reference_failure e).
    { clear tag attrs w e w'. induction IH as [| c l Hc _ IHl]; intros w e w'; simpl.
      - discriminate.
      - intros H. apply bind_inv_Throw in H as [H | [c' [w1 [_ H]]]]; [eauto |].
        apply bind_inv_Throw in H as [H | [l' [w2 [_ H]]]]; [eauto | discriminate H]. }
    rewrite rewrite_node_Elem. intros H.
    apply bind_inv_Throw in H as [H | [el [w1 [_ H]]]].
    + eapply handler_Throw; eauto.
    + destruct (innerContent el); [discriminate H |].
      apply bind_inv_Throw in H as [H | [l' [w2 [_ H]]]]; [eauto | discriminate H].
Qed.

Lemma rewrite_nodes_Throw served html l :
  forall w e w',
    rewrite_nodes (element_handler served html) l w = (Throw e, w') ->
    reference_failure e.
Proof.
  induction l as [| c l IHl]; intros w e w'; simpl.
  - discriminate.
  - intros H. apply bind_inv_Throw in H as [H | [c' [w1 [_ H]]]].
    + eapply rewrite_node_Throw; eauto.
    + apply bind_inv_Throw in H as [H | [l' [w2 [_ H]]]]; [eauto | discriminate H].
Qed.

(** The list step shared by the proofs about a failing walk. *)
Lemma rewrite_nodes_fails_step served html path c l w :
  moduleMap w !! path = None -> unloadable w path ->
  (forall w, moduleMap w !! path = None -> unloadable w path ->
             In path (List.map (resolved_path served html) (external_sources c)) ->
             exists e w', rewrite_node (element_handler served html) c w = (Throw e, w')) ->
  (forall w, moduleMap w !! path = None -> unloadable w path ->
             In path (List.map (resolved_path served html) (external_sources_all l)) ->
             exists e w', rewrite_nodes (element_handler served html) l w = (Throw e, w')) ->
  In path (List.map (resolved_path served html) (external_sources_all (c :: l))) ->
  exists e w', rewrite_nodes (element_handler served html) (c :: l) w = (Throw e, w').
Proof.
  intros E U Hc Hl Hin. simpl in Hin. rewrite List.map_app in Hin.
  apply in_app_or in Hin. simpl.
  destruct (rewrite_node (element_handler served html) c w) as [[c' | e] w1] eqn:Ec.
  - destruct Hin as [Hin | Hin].
    + destruct (Hc w E U Hin) as [e [w' H]]. congruence.
    + destruct (grows_unloadable _ _ _ (rewrite_node_grows _ _ _ _ _ _ Ec) U E)
        as [U1 E1].
      destruct (Hl w1 E1 U1 Hin) as [e [w' H]].
      exists e, w'. rewrite (bind_Ok _ _ _ _ _ Ec). apply bind_Throw. exact H.
  - exists e, w1. apply bind_Throw. exact Ec.
Qed.

(** A walk over a document that holds an external import map whose module is
    not in the map and cannot be loaded throws. *)
Lemma rewrite_node_fails served html path n :
  forall w, moduleMap w !! path = None -> unloadable w path ->
            In path (List.map (resolved_path served html) (external_sources n)) ->
            exists e w', rewrite_node (element_handler served html) n w = (Throw e, w').
Proof.
  induction n as [data | tag attrs children IH] using node_ind; intros w E U Hin.
  - destruct Hin.
  - rewrite external_sources_Elem in Hin. rewrite rewrite_node_Elem.
    destruct (external_import_map (mkElement tag attrs None)) as [src |] eqn:Em.
    + destruct Hin as [<- | []].
      destruct (import_json_fails _ _ E U) as [e [w' [I _]]].
      exists e, w'. apply bind_Throw. rewrite (handler_match _ _ _ _ _ Em).
      apply bind_Throw. exact I.
    + rewrite (bind_Ok _ _ _ _ _ (handler_skip served html _ w Em)). simpl.
      assert (IHl : forall w, moduleMap w !! path = None -> unloadable w path ->
                 In path (List.map (resolved_path served html)
                                   (external_sources_all children)) ->
                 exists e w',
                   rewrite_nodes (element_handler served html) children w = (Throw e, w')).
      { clear Em Hin E U w tag attrs.
        induction IH as [| c l Hc _ IHl]; intros w E U Hin; [destruct Hin |].
        apply (rewrite_nodes_fails_step served html path); assumption. }
      destruct (IHl w E U Hin) as [e [w' H]].
      exists e, w'. apply bind_Throw. exact H.
Qed.

Lemma rewrite_nodes_fails served html path l :
  forall w, moduleMap w !! path = None -> unloadable w path ->
            In path (List.map (resolved_path served html) (external_sources_all l)) ->
            exists e w', rewrite_nodes (element_handler served html) l w = (Throw e, w').
Proof.
  induction l as [| c l IHl]; intros w E U Hin; [destruct Hin |].
  apply (rewrite_nodes_fails_step served html path); try assumption.
  intros w0. apply rewrite_node_fails.
Qed.

(** ** The log *)

Lemma imported_paths_app l1 l2 :
  imported_paths (l1 ++ l2) = (imported_paths l1 ++ imported_paths l2)%list.
Proof. apply List.flat_map_app. Qed.

Lemma read_paths_app l1 l2 :
  read_paths (l1 ++ l2) = (read_paths l1 ++ read_paths l2)%list.
Proof. apply List.flat_map_app. Qed.

(** An import is on record, whatever comes of it. *)
Lemma import_json_imported path w r w' :
  import_json path w = (r, w') ->
  imported_paths (log w') = (imported_paths (log w) ++ [path])%list.
Proof.
  destruct (import_json_cases path w)
    as [[d E] | [[E F] | [[E P] | [d [E P]]]]].
  - rewrite (import_json_cached _ _ _ E). intros [= _ <-]. simpl.
    rewrite imported_paths_app. reflexivity.
  - rewrite (import_json_unreadable _ _ E F). intros [= _ <-]. simpl.
    rewrite imported_paths_app. reflexivity.
  - rewrite (import_json_invalid _ _ E P). intros [= _ <-]. simpl.
    rewrite imported_paths_app. reflexivity.
  - rewrite (import_json_loaded _ _ _ E P). intros [= _ <-]. simpl.
    rewrite imported_paths_app. reflexivity.
Qed.

(** The file is read when the module is not in the map, and only then. *)
Lemma import_json_read path w r w' :
  import_json path w = (r, w') ->
  read_paths (log w') =
  (read_paths (log w) ++
   match moduleMap w !! path with Some _ => [] | None => [path] end)%list.
Proof.
  destruct (import_json_cases path w)
    as [[d E] | [[E F] | [[E P] | [d [E P]]]]]; rewrite E.
  - rewrite (import_json_cached _ _ _ E). intros [= _ <-]. simpl.
    rewrite read_paths_app. reflexivity.
  - rewrite (import_json_unreadable _ _ E F). intros [= _ <-]. simpl.
    rewrite read_paths_app. reflexivity.
  - rewrite (import_json_invalid _ _ E P). intros [= _ <-]. simpl.
    rewrite read_paths_app. reflexivity.
  - rewrite (import_json_loaded _ _ _ E P). intros [= _ <-]. simpl.
    rewrite read_paths_app. reflexivity.
Qed.

End Failures.

Section ImportsOfAWalk.

Context {RT : Runtime}.

Lemma rewrite_nodes_imported_step served html c l w l0 w' :
  (forall w n' w',
      rewrite_node (element_handler served html) c w = (Ok n', w') ->
      imported_paths (log w') =
      (imported_paths (log w)
         ++ List.map (resolved_path served html) (external_sources c))%list) ->
  (forall w l' w',
      rewrite_nodes (element_handler served html) l w = (Ok l', w') ->
      imported_paths (log w') =
      (imported_paths (log w)
         ++ List.map (resolved_path served html) (external_sources_all l))%list) ->
  rewrite_nodes (element_handler served html) (c :: l) w = (Ok l0, w') ->
  imported_paths (log w') =
  (imported_paths (log w)
     ++ List.map (resolved_path served html) (external_sources_all (c :: l)))%list.
Proof.
  intros Hc Hl H. simpl in H.
  apply bind_inv_Ok in H as [c' [w1 [Ec H]]].
  apply bind_inv_Ok in H as [l' [w2 [El H]]].
  injection H as <- <-. simpl.
  rewrite (Hl _ _ _ El), (Hc _ _ _ Ec), List.map_app, app_assoc. reflexivity.
Qed.

(** A walk that returns has imported the resolved paths of the external
    import maps of the document, in document order, and nothing else. *)
Lemma rewrite_node_imported served html n :
  forall w n' w',
    rewrite_node (element_handler served html) n w = (Ok n', w') ->
    imported_paths (log w') =
    (imported_paths (log w)
       ++ List.map (resolved_path served html) (external_sources n))%list.
Proof.
  induction n as [data | tag attrs children IH] using node_ind; intros w n' w'.
  - simpl. intros [= _ <-]. rewrite app_nil_r. reflexivity.
  - assert (IHl : forall w l' w',
               rewrite_nodes (element_handler served html) children w = (Ok l', w') ->
               imported_paths (log w') =
               (imported_paths (log w)
                  ++ List.map (resolved_path served html)
                              (external_sources_all children))%list).
    { clear tag attrs n' w w'. induction IH as [| c l Hc _ IHl]; intros w l' w'.
      - simpl. intros [= _ <-]. rewrite app_nil_r. reflexivity.
      - apply rewrite_nodes_imported_step; assumption. }
    rewrite rewrite_node_Elem, external_sources_Elem. intros H.
    apply bind_inv_Ok in H as [el [w1 [Eh H]]].
    apply handler_Ok in Eh.
    destruct (external_import_map (mkElement tag attrs None)) as [src |].
    + destruct Eh as [document [I ->]]. simpl in H. injection H as _ <-.
      apply (import_json_imported _ _ _ _ I).
    + destruct Eh as [-> ->]. simpl in H.
      apply bind_inv_Ok in H as [l' [w2 [El H]]]. injection H as _ <-.
      apply (IHl _ _ _ El).
Qed.

Lemma rewrite_nodes_imported served html l :
  forall w l' w',
    rewrite_nodes (element_handler served html) l w = (Ok l', w') ->
    imported_paths (log w') =
    (imported_paths (log w)
       ++ List.map (resolved_path served html) (external_sources_all l))%list.
Proof.
  induction l as [| c l IHl]; intros w l' w'.
  - simpl. intros [= _ <-]. rewrite app_nil_r. reflexivity.
  - apply rewrite_nodes_imported_step; [apply rewrite_node_imported | exact IHl].
Qed.

End ImportsOfAWalk.

Section ServedFromTheMap.

Context {RT : Runtime}.

Lemma rewrite_nodes_from_modules_step served html c l w l0 :
  (forall w n',
      inlined served html (moduleMap w) c = Some n' ->
      exists w', rewrite_node (element_handler served html) c w = (Ok n', w')
                 /\ moduleMap w' = moduleMap w /\ files w' = files w
                 /\ read_paths (log w') = read_paths (log w)) ->
  (forall w l',
      inlined_all served html (moduleMap w) l = Some l' ->
      exists w', rewrite_nodes (element_handler served html) l w = (Ok l', w')
                 /\ moduleMap w' = moduleMap w /\ files w' = files w
                 /\ read_paths (log w') = read_paths (log w)) ->
  inlined_all served html (moduleMap w) (c :: l) = Some l0 ->
  exists w', rewrite_nodes (element_handler served html) (c :: l) w = (Ok l0, w')
             /\ moduleMap w' = moduleMap w /\ files w' = files w
             /\ read_paths (log w') = read_paths (log w).
Proof.
  intros Hc Hl H. simpl in H.
  destruct (inlined served html (moduleMap w) c) as [c' |] eqn:Ec; [| discriminate].
  destruct (inlined_all served html (moduleMap w) l) as [l' |] eqn:El; [| discriminate].
  injection H as <-.
  destruct (Hc _ _ Ec) as [w1 [R1 [M1 [F1 L1]]]].
  rewrite <- M1 in El. destruct (Hl _ _ El) as [w2 [R2 [M2 [F2 L2]]]].
  exists w2. simpl. rewrite (bind_Ok _ _ _ _ _ R1), (bind_Ok _ _ _ _ _ R2).
  split; [reflexivity |]. split; [congruence |]. split; congruence.
Qed.

(** A document whose modules are all in the map is rewritten from the map:
    the walk returns what the specification describes and reads no file. *)
Lemma rewrite_node_from_modules served html n :
  forall w n',
    inlined served html (moduleMap w) n = Some n' ->
    exists w', rewrite_node (element_handler served html) n w = (Ok n', w')
               /\ moduleMap w' = moduleMap w /\ files w' = files w
               /\ read_paths (log w') = read_paths (log w).
Proof.
  induction n as [data | tag attrs children IH] using node_ind; intros w n'.
  - simpl. intros [= <-]. exists w. auto.
  - assert (IHl : forall w l',
               inlined_all served html (moduleMap w) children = Some l' ->
               exists w',
                 rewrite_nodes (element_handler served html) children w = (Ok l', w')
                 /\ moduleMap w' = moduleMap w /\ files w' = files w
                 /\ read_paths (log w') = read_paths (log w)).
    { clear tag attrs w n'. induction IH as [| c l Hc _ IHl]; intros w l'.
      - simpl. intros [= <-]. exists w. auto.
      - apply rewrite_nodes_from_modules_step; assumption. }
    rewrite inlined_Elem, rewrite_node_Elem.
    destruct (external_import_map (mkElement tag attrs None)) as [src |] eqn:Em.
    + destruct (moduleMap w !! resolved_path served html src) as [d |] eqn:E;
        [| discriminate].
      intros [= <-].
      assert (Hh : element_handler served html (mkElement tag attrs None) w =
                   (Ok (setInnerContent
                          (removeAttribute (mkElement tag attrs None) "src")
                          (JSON_stringify d)),
                    mkWorld (files w) (moduleMap w)
                            (log w ++ [Imported (resolved_path served html src)]))).
      { rewrite (handler_match _ _ _ _ _ Em).
        rewrite (bind_Ok _ _ _ _ _ (import_json_cached _ _ _ E)). reflexivity. }
      eexists. split.
      * rewrite (bind_Ok _ _ _ _ _ Hh). reflexivity.
      * simpl. rewrite read_paths_app. simpl. rewrite app_nil_r. auto.
    + destruct (inlined_all served html (moduleMap w) children) as [l' |] eqn:El;
        [| discriminate].
      intros [= <-]. destruct (IHl _ _ El) as [w' [R H]].
      exists w'. split; [| exact H].
      rewrite (bind_Ok _ _ _ _ _ (handler_skip served html _ w Em)). simpl.
      rewrite (bind_Ok _ _ _ _ _ R). reflexivity.
Qed.

Lemma rewrite_nodes_from_modules served html l :
  forall w l',
    inlined_all served html (moduleMap w) l = Some l' ->
    exists w', rewrite_nodes (element_handler served html) l w = (Ok l', w')
               /\ moduleMap w' = moduleMap w /\ files w' = files w
               /\ read_paths (log w') = read_paths (log w).
Proof.
  induction l as [| c l IHl]; intros w l'.
  - simpl. intros [= <-]. exists w. auto.
  - apply rewrite_nodes_from_modules_step; [apply rewrite_node_from_modules | exact IHl].
Qed.

End ServedFromTheMap.

(* ===================================================================== *)
(** * The middleware, branch by branch *)
(* ===================================================================== *)

Section Dispatch.

Context {RT : Runtime}.

Lemma transformResponse_run served html input w :
  transformResponse served html input w =
  match rewrite_nodes (element_handler served html) (html_parse input) w with
  | (Ok document, w') => (Ok (html_serialize document), w')
  | (Throw e, w') => (Throw e, w')
  end.
Proof.
  unfold transformResponse, HTMLRewriter_transform, bind.
  destruct (rewrite_nodes _ _ w) as [[document | e] w']; reflexivity.
Qed.

(** The shared tail of the three branches: the body and the type are
    assigned when the transform has returned, and not otherwise. *)
Lemma transform_and_install_run options html input st :
  transform_and_install options html input st =
  match transformResponse (servedDirectoryAbsolutePath options) html input (world st) with
  | (Ok out, w') =>
      (Ok tt, mkState (mkContext (request_url (ctx st)) (BString (utf8_decode out))
                                 "text/html") w')
  | (Throw e, w') => (Throw e, mkState (ctx st) w')
  end.
Proof.
  unfold transform_and_install, bind, lift_world.
  destruct (transformResponse _ _ _ (world st)) as [[out | e] w']; reflexivity.
Qed.

Lemma call_shouldRun_run options st :
  call_shouldRun options (ctx st) st = (Ok (runs options (ctx st)), consulted options st).
Proof.
  unfold call_shouldRun, runs, consulted.
  destruct (shouldRun options) as [f |]; reflexivity.
Qed.

Lemma consulted_ctx options st : ctx (consulted options st) = ctx st.
Proof. unfold consulted. destruct (shouldRun options); reflexivity. Qed.

Lemma consulted_files options st :
  files (world (consulted options st)) = files (world st).
Proof. unfold consulted. destruct (shouldRun options); reflexivity. Qed.

Lemma consulted_moduleMap options st :
  moduleMap (world (consulted options st)) = moduleMap (world st).
Proof. unfold consulted. destruct (shouldRun options); reflexivity. Qed.

Lemma consulted_reads options st :
  read_paths (log (world (consulted options st))) = read_paths (log (world st))
  /\ imported_paths (log (world (consulted options st)))
     = imported_paths (log (world st)).
Proof.
  unfold consulted. destruct (shouldRun options); simpl; [| auto].
  rewrite read_paths_app, imported_paths_app. simpl. rewrite !app_nil_r. auto.
Qed.

(** A response that is not HTML: nothing is called, nothing changes. *)
Lemma after_next_not_html options st :
  response_is (ctx st) "text/html" = false ->
  after_next options st = (Ok tt, st).
Proof.
  intros H. unfold after_next, bind, get_ctx. rewrite H. reflexivity.
Qed.

(** An HTML response that the run-predicate declines. *)
Lemma after_next_declined options st :
  response_is (ctx st) "text/html" = true ->
  runs options (ctx st) = false ->
  after_next options st = (Ok tt, consulted options st).
Proof.
  intros H R. unfold after_next, bind at 1, get_ctx. rewrite H. simpl.
  unfold bind. rewrite call_shouldRun_run, R. reflexivity.
Qed.

(** An HTML response that is to be transformed: the dispatch on the body. *)
Lemma after_next_dispatch options st :
  response_is (ctx st) "text/html" = true ->
  runs options (ctx st) = true ->
  after_next options st =
  match response_body (ctx st) with
  | BString responseBody =>
      transform_and_install options (requested_document options (ctx st))
                            (utf8_encode responseBody) (consulted options st)
  | BUint8Array responseBody =>
      transform_and_install options (requested_document options (ctx st))
                            responseBody (consulted options st)
  | BReadStream responseBody =>
      (initialCode <- readStreamToString responseBody ;;
       transform_and_install options (requested_document options (ctx st))
                             (utf8_encode initialCode)) (consulted options st)
  | BOther constructorName =>
      (Throw (NotSupported (not_supported_message constructorName)),
       consulted options st)
  end.
Proof.
  intros H R. unfold after_next, bind at 1, get_ctx. rewrite H. simpl.
  unfold bind at 1. rewrite call_shouldRun_run, R. simpl.
  unfold requested_document. destruct (response_body (ctx st)); reflexivity.
Qed.

(** Reading the body stream, and then the shared tail. *)
Lemma read_then_install options html stream st :
  (initialCode <- readStreamToString stream ;;
   transform_and_install options html (utf8_encode initialCode)) st =
  let read type :=
    mkState (mkContext (request_url (ctx st))
                       (BReadStream (mkReadStream [] (broken stream))) type)
            (world st) in
  if broken stream then (Throw StreamFailure, read "text/plain")
  else transform_and_install options html
         (utf8_encode (utf8_decode (List.concat (unread stream))))
         (read (response_type (ctx st))).
Proof.
  unfold readStreamToString, bind, set_response_body, set_response_type, throw, ret.
  simpl. destruct (broken stream); reflexivity.
Qed.

End Dispatch.

(* ===================================================================== *)
(** * The claims of the specification *)
(* ===================================================================== *)

Section Claims.

Context {RT : Runtime}.

(** C1.  For a [script] element whose [type] is [importmap] and that has a
    [src], the handler imports one path: the join of the served root and
    [src] when [src] is absolute, and otherwise the resolution of [src]
    against the directory of the requesting document; that path is read
    from disk when its module is not in the module map.  In particular,
    with served root [/site], document [/site/pages/a.html] and [src]
    [../maps/m.json] the path is [/site/maps/m.json], which is not the join
    of the root and [src].  A transform that returns has imported these
    paths, one for each such element of the document, in document order. *)
Theorem resolved_path_of_external_import_map
    (servedRootPath requestingDocumentPath : string) (el : Element) (src : string)
    (w : World) :
  tagName el = "script" ->
  getAttribute el "type" = Some "importmap" ->
  getAttribute el "src" = Some src ->
  let path :=
    if Path.isAbsolute src then Path.join [servedRootPath; src]
    else Path.resolve process_cwd [Path.dirname requestingDocumentPath; src] in
  (exists r w',
      element_handler servedRootPath requestingDocumentPath el w = (r, w')
      /\ imported_paths (log w') = (imported_paths (log w) ++ [path])%list
      /\ (moduleMap w !! path = None ->
          read_paths (log w') = (read_paths (log w) ++ [path])%list))
  /\ (servedRootPath = "/site" ->
      requestingDocumentPath = "/site/pages/a.html" ->
      src = "../maps/m.json" ->
      path = "/site/maps/m.json" /\ Path.join [servedRootPath; src] = "/maps/m.json")
  /\ (forall input w0 out w1,
         transformResponse servedRootPath requestingDocumentPath input w0 = (Ok out, w1) ->
         imported_paths (log w1) =
         (imported_paths (log w0)
            ++ List.map (resolved_path servedRootPath requestingDocumentPath)
                        (external_sources_all (html_parse input)))%list).
Proof.
  intros Htag Htype Hsrc path. split; [| split]; cycle 2.
  { intros input w0 out w1. rewrite transformResponse_run.
    destruct (rewrite_nodes _ (html_parse input) w0) as [[rewritten | e] w2] eqn:R;
      [| discriminate].
    intros [= _ <-]. apply (rewrite_nodes_imported _ _ _ _ _ _ R). }
  - assert (E : external_import_map el = Some src).
    { apply external_import_map_Some. auto. }
    rewrite (handler_match _ _ _ _ _ E).
    change (resolved_path servedRootPath requestingDocumentPath src) with path.
    unfold bind.
    destruct (import_json path w) as [[document | e] w1] eqn:I.
    + eexists _, _. split; [reflexivity |]. simpl. split.
      * apply (import_json_imported _ _ _ _ I).
      * intros Hnone. rewrite (import_json_read _ _ _ _ I), Hnone. reflexivity.
    + eexists _, _. split; [reflexivity |]. split.
      * apply (import_json_imported _ _ _ _ I).
      * intros Hnone. rewrite (import_json_read _ _ _ _ I), Hnone. reflexivity.
  - intros -> -> ->. subst path. split; reflexivity.
Qed.

(** C2.  The handler leaves an element as it is, and the world with it,
    when the tag is not [script], or the [type] attribute is absent, or it
    is not equal to [importmap], or it is [importmap] and there is no [src]
    (an inline import map).  An element that the handler does not leave as
    it is, is therefore a [script] of type [importmap] with a [src]. *)
Theorem only_external_import_maps_are_modified
    (served html : string) (el : Element) (w : World) :
  (tagName el <> "script"
   \/ getAttribute el "type" = None
   \/ (exists t, getAttribute el "type" = Some t /\ t <> "importmap")
   \/ (getAttribute el "type" = Some "importmap" /\ getAttribute el "src" = None) ->
   element_handler served html el w = (Ok el, w))
  /\ (element_handler served html el w <> (Ok el, w) ->
      tagName el = "script"
      /\ getAttribute el "type" = Some "importmap"
      /\ exists src, getAttribute el "src" = Some src).
Proof.
  split.
  - intros H. apply handler_skip. apply external_import_map_None.
    destruct H as [H | [H | [H | [_ H]]]]; auto.
  - intros H.
    destruct (external_import_map el) as [src |] eqn:E.
    + apply external_import_map_Some in E as [Htag [Htype Hsrc]]. eauto.
    + exfalso. apply H. apply handler_skip. exact E.
Qed.


(** What is common to the three supported shapes of body: the world is
    the one the transform leaves, and the response is assigned when the
    transform returned. *)
Lemma after_next_supported options st input :
  response_is (ctx st) "text/html" = true ->
  runs options (ctx st) = true ->
  transform_input (response_body (ctx st)) = Some input ->
  let html := requested_document options (ctx st) in
  match transformResponse (servedDirectoryAbsolutePath options) html input
                          (world (consulted options st)) with
  | (Ok out, w') =>
      after_next options st =
      (Ok tt, mkState (mkContext (request_url (ctx st)) (BString (utf8_decode out))
                                 "text/html") w')
  | (Throw e, w') =>
      after_next options st =
      (Throw e, mkState (mkContext (request_url (ctx st))
                                   (consumed (response_body (ctx st)))
                                   (response_type (ctx st))) w')
  end.
Proof.
  intros Hhtml Hruns Hin html.
  rewrite (after_next_dispatch _ _ Hhtml Hruns). fold html.
  pose proof (consulted_ctx options st) as Hc.
  destruct st as [[url body type] w]. simpl in *.
  destruct body as [text | buffer | stream | name]; simpl in Hin.
  - injection Hin as <-. rewrite transform_and_install_run. rewrite Hc. simpl.
    destruct (transformResponse _ html _ _) as [[out | e] w']; reflexivity.
  - injection Hin as <-. rewrite transform_and_install_run. rewrite Hc. simpl.
    destruct (transformResponse _ html _ _) as [[out | e] w']; reflexivity.
  - destruct stream as [chunks [|]]; simpl in Hin; [discriminate |].
    injection Hin as <-.
    rewrite read_then_install. cbv zeta. simpl broken. cbv iota.
    rewrite transform_and_install_run.
    rewrite Hc. simpl.
    destruct (transformResponse _ html _ _) as [[out | e] w']; reflexivity.
  - discriminate.
Qed.

(** C4.  Once the rest of the pipeline has returned: when the response is
    not HTML, the middleware returns with the state exactly as it found it
    (the run-predicate is not called, no file is imported or read); when
    the response is HTML and the run-predicate, true when absent, answers
    false, the middleware returns with the context, the files and the
    module map as it found them, nothing imported or read, and the call of
    the predicate as the only new entry of the log. *)
Theorem skipped_responses_are_untouched
    (options : MiddlewareOptions) (next : M State unit) (st0 st : State) :
  next st0 = (Ok tt, st) ->
  response_is (ctx st) "text/html" = false
  \/ (response_is (ctx st) "text/html" = true /\ runs options (ctx st) = false) ->
  exists st',
    middleware options next st0 = (Ok tt, st')
    /\ ctx st' = ctx st
    /\ files (world st') = files (world st)
    /\ moduleMap (world st') = moduleMap (world st)
    /\ read_paths (log (world st')) = read_paths (log (world st))
    /\ imported_paths (log (world st')) = imported_paths (log (world st))
    /\ (response_is (ctx st) "text/html" = false -> st' = st)
    /\ (response_is (ctx st) "text/html" = true ->
        log (world st') =
        (log (world st) ++
         match shouldRun options with Some _ => [ShouldRunCalled] | None => [] end)%list).
Proof.
  intros Hnext [Hhtml | [Hhtml Hruns]]; unfold middleware;
    rewrite (bind_Ok _ _ _ _ _ Hnext).
  - exists st. rewrite (after_next_not_html _ _ Hhtml).
    repeat split; try reflexivity. congruence.
  - exists (consulted options st). rewrite (after_next_declined _ _ Hhtml Hruns).
    split; [reflexivity |]. split; [apply consulted_ctx |].
    split; [apply consulted_files |]. split; [apply consulted_moduleMap |].
    split; [apply consulted_reads |]. split; [apply consulted_reads |].
    split; [congruence |]. intros _. unfold consulted.
    destruct (shouldRun options); simpl; [reflexivity | rewrite app_nil_r; reflexivity].
Qed.

(** C5.  For an HTML response that is to be transformed and whose body is
    neither a string, nor a [Uint8Array], nor a [ReadStream], the middleware
    throws the [Not supported!] error; the context, the files and the module
    map are as they were and nothing was imported or read. *)
Theorem unsupported_body_is_an_error
    (options : MiddlewareOptions) (next : M State unit) (st0 st : State)
    (constructorName : option string) :
  next st0 = (Ok tt, st) ->
  response_is (ctx st) "text/html" = true ->
  runs options (ctx st) = true ->
  response_body (ctx st) = BOther constructorName ->
  exists st',
    middleware options next st0 =
      (Throw (NotSupported (not_supported_message constructorName)), st')
    /\ ctx st' = ctx st
    /\ files (world st') = files (world st)
    /\ moduleMap (world st') = moduleMap (world st)
    /\ read_paths (log (world st')) = read_paths (log (world st))
    /\ imported_paths (log (world st')) = imported_paths (log (world st)).
Proof.
  intros Hnext Hhtml Hruns Hbody. unfold middleware.
  rewrite (bind_Ok _ _ _ _ _ Hnext), (after_next_dispatch _ _ Hhtml Hruns), Hbody.
  exists (consulted options st).
  split; [reflexivity |]. split; [apply consulted_ctx |].
  split; [apply consulted_files |]. split; [apply consulted_moduleMap |].
  split; apply consulted_reads.
Qed.

Lemma consulted_world options c c' w :
  world (consulted options (mkState c w)) = world (consulted options (mkState c' w)).
Proof. unfold consulted. destruct (shouldRun options); reflexivity. Qed.

(** Post-processing that throws anything but the failure of the stream has
    assigned neither the body nor the type; a body that is a stream has
    been read. *)
Lemma after_next_Throw options st e st' :
  after_next options st = (Throw e, st') ->
  e <> StreamFailure ->
  ctx st' = mkContext (request_url (ctx st)) (consumed (response_body (ctx st)))
                      (response_type (ctx st)).
Proof.
  intros H Hne.
  destruct (response_is (ctx st) "text/html") eqn:Hhtml;
    [| rewrite (after_next_not_html _ _ Hhtml) in H; discriminate H].
  destruct (runs options (ctx st)) eqn:Hruns;
    [| rewrite (after_next_declined _ _ Hhtml Hruns) in H; discriminate H].
  destruct (transform_input (response_body (ctx st))) as [input |] eqn:Hin.
  - pose proof (after_next_supported _ _ _ Hhtml Hruns Hin) as S. cbv zeta in S.
    destruct (transformResponse _ _ input _) as [[out | e'] w'];
      rewrite S in H; [discriminate H |].
    injection H as _ <-. reflexivity.
  - rewrite (after_next_dispatch _ _ Hhtml Hruns) in H.
    pose proof (consulted_ctx options st) as Hc.
    destruct st as [[url body type] w]. simpl in *.
    destruct body as [text | buffer | [chunks [|]] | name]; try discriminate Hin.
    + rewrite read_then_install in H. simpl in H. injection H as <- _.
      contradiction Hne. reflexivity.
    + injection H as _ <-. rewrite Hc. reflexivity.
Qed.

(** C6, as amended.  When the document holds an external import map whose
    module is not in the module map and for which the loader fails (it
    finds nothing to load, or fails to load what it finds), the transform
    throws the failure of an import, the middleware throws the same, and
    neither body nor type is assigned: the response holds no rewritten
    text, and a stream it held has been read. *)
Theorem failed_import_fails_the_request
    (options : MiddlewareOptions) (next : M State unit) (st0 st : State)
    (input : list byte) (path : string) :
  next st0 = (Ok tt, st) ->
  response_is (ctx st) "text/html" = true ->
  runs options (ctx st) = true ->
  transform_input (response_body (ctx st)) = Some input ->
  In path (List.map (resolved_path (servedDirectoryAbsolutePath options)
                                   (requested_document options (ctx st)))
                    (external_sources_all (html_parse input))) ->
  moduleMap (world st) !! path = None ->
  unloadable (world st) path ->
  exists e w',
    transformResponse (servedDirectoryAbsolutePath options)
                      (requested_document options (ctx st)) input
                      (world (consulted options st)) = (Throw e, w')
    /\ reference_failure e
    /\ middleware options next st0 =
       (Throw e, mkState (mkContext (request_url (ctx st))
                                    (consumed (response_body (ctx st)))
                                    (response_type (ctx st))) w').
Proof.
  intros Hnext Hhtml Hruns Hin Hpath Hnone Hun.
  pose proof (after_next_supported _ _ _ Hhtml Hruns Hin) as S. cbv zeta in S.
  rewrite transformResponse_run in *.
  assert (Hnone' : moduleMap (world (consulted options st)) !! path = None).
  { rewrite consulted_moduleMap. exact Hnone. }
  assert (Hun' : unloadable (world (consulted options st)) path).
  { unfold unloadable. rewrite consulted_files. exact Hun. }
  destruct (rewrite_nodes_fails _ _ _ _ _ Hnone' Hun' Hpath) as [e [w' R]].
  rewrite R in *. exists e, w'.
  split; [reflexivity |]. split; [exact (rewrite_nodes_Throw _ _ _ _ _ _ R) |].
  unfold middleware. rewrite (bind_Ok _ _ _ _ _ Hnext). exact S.
Qed.

(** C7.  For an HTML response that is to be transformed, the same text
    supplied as a string, as the buffer of its UTF-8 bytes, or as a stream
    whose chunks decode to it gives the same outcome and the same world in
    the three cases; when the outcome is a return, the response is the same
    text in the three cases and its type is [text/html]. *)
Theorem representations_agree
    (options : MiddlewareOptions) (url type : string) (w : World)
    (text : string) (buffer : list byte) (stream : ReadStream) :
  let run body := after_next options (mkState (mkContext url body type) w) in
  type_is type "text/html" = true ->
  runs options (mkContext url (BString text) type) = true ->
  runs options (mkContext url (BUint8Array buffer) type) = true ->
  runs options (mkContext url (BReadStream stream) type) = true ->
  buffer = utf8_encode text ->
  broken stream = false ->
  utf8_decode (List.concat (unread stream)) = text ->
  fst (run (BUint8Array buffer)) = fst (run (BString text))
  /\ fst (run (BReadStream stream)) = fst (run (BString text))
  /\ world (snd (run (BUint8Array buffer))) = world (snd (run (BString text)))
  /\ world (snd (run (BReadStream stream))) = world (snd (run (BString text)))
  /\ (fst (run (BString text)) = Ok tt ->
      exists out,
        ctx (snd (run (BString text))) = mkContext url (BString out) "text/html"
        /\ ctx (snd (run (BUint8Array buffer))) = mkContext url (BString out) "text/html"
        /\ ctx (snd (run (BReadStream stream))) = mkContext url (BString out) "text/html").
Proof.
  intros run Hhtml R1 R2 R3 -> Hb Hs. subst run. cbv beta.
  pose proof (after_next_supported options
                (mkState (mkContext url (BString text) type) w)
                (utf8_encode text) Hhtml R1 eq_refl) as S1.
  pose proof (after_next_supported options
                (mkState (mkContext url (BUint8Array (utf8_encode text)) type) w)
                (utf8_encode text) Hhtml R2 eq_refl) as S2.
  assert (Hin : transform_input (BReadStream stream) = Some (utf8_encode text)).
  { simpl. rewrite Hb, Hs. reflexivity. }
  pose proof (after_next_supported options
                (mkState (mkContext url (BReadStream stream) type) w)
                (utf8_encode text) Hhtml R3 Hin) as S3.
  cbv zeta in S1, S2, S3. unfold requested_document in *. simpl in S1, S2, S3.
  rewrite (consulted_world options _ (mkContext url (BString text) type) w) in S2.
  rewrite (consulted_world options _ (mkContext url (BString text) type) w) in S3.
  destruct (transformResponse _ _ _ _) as [[out | e] w'];
    rewrite S1, S2, S3; simpl; repeat split; try discriminate.
  intros _. exists (utf8_decode out). auto.
Qed.

(** C8, as amended.  A request that returns has issued an import for every
    external import map of the response and leaves a module in the module
    map for each of them.  The same request made again, in any world that
    still holds those modules and whatever its files hold by then, issues
    the same imports again, loads nothing from the disk, and returns the
    response of the first: what was imported once is served from the
    module map. *)
Theorem later_requests_are_served_from_the_module_map
    (options : MiddlewareOptions) (st st1 : State) (input : list byte) (w2 : World) :
  response_is (ctx st) "text/html" = true ->
  runs options (ctx st) = true ->
  transform_input (response_body (ctx st)) = Some input ->
  after_next options st = (Ok tt, st1) ->
  (forall path document,
      moduleMap (world st1) !! path = Some document ->
      moduleMap w2 !! path = Some document) ->
  let imports :=
    List.map (resolved_path (servedDirectoryAbsolutePath options)
                            (requested_document options (ctx st)))
             (external_sources_all (html_parse input)) in
  imported_paths (log (world st1)) = (imported_paths (log (world st)) ++ imports)%list
  /\ (forall path, In path imports -> is_Some (moduleMap (world st1) !! path))
  /\ exists st3,
       after_next options (mkState (ctx st) w2) = (Ok tt, st3)
       /\ ctx st3 = ctx st1
       /\ imported_paths (log (world st3)) = (imported_paths (log w2) ++ imports)%list
       /\ read_paths (log (world st3)) = read_paths (log w2)
       /\ moduleMap (world st3) = moduleMap w2
       /\ files (world st3) = files w2.
Proof.
  intros Hhtml Hruns Hin H Hsub imports.
  pose proof (after_next_supported _ _ _ Hhtml Hruns Hin) as S. cbv zeta in S.
  rewrite transformResponse_run in S.
  destruct (rewrite_nodes _ (html_parse input) (world (consulted options st)))
    as [[rewritten | e] w1] eqn:R; rewrite S in H; [| discriminate H].
  injection H as <-. simpl.
  pose proof (rewrite_nodes_inlined _ _ _ _ _ _ R) as Hinl.
  split; [| split].
  - rewrite (rewrite_nodes_imported _ _ _ _ _ _ R).
    destruct (consulted_reads options st) as [_ ->]. reflexivity.
  - intros path Hp. exact (inlined_all_covers _ _ _ _ _ Hinl _ Hp).
  - set (st2 := mkState (ctx st) w2).
    pose proof (after_next_supported options st2 input Hhtml Hruns Hin) as S2.
    cbv zeta in S2. rewrite transformResponse_run in S2.
    assert (Hinl2 : inlined_all (servedDirectoryAbsolutePath options)
                                (requested_document options (ctx st))
                                (moduleMap (world (consulted options st2)))
                                (html_parse input) = Some rewritten).
    { rewrite consulted_moduleMap. simpl in Hsub |- *.
      exact (inlined_all_mono _ _ _ _ Hsub _ _ Hinl). }
    destruct (rewrite_nodes_from_modules _ _ _ _ _ Hinl2) as [w3 [R3 [M3 [F3 L3]]]].
    simpl ctx in S2. rewrite R3 in S2.
    eexists. split; [exact S2 |]. simpl.
    split; [reflexivity |].
    rewrite (rewrite_nodes_imported _ _ _ _ _ _ R3), L3, M3, F3.
    rewrite consulted_moduleMap, consulted_files.
    destruct (consulted_reads options st2) as [-> ->]. auto.
Qed.

(** C9, as amended.  When no external import map of the input has its
    [src] written twice, the document that a returning transform writes
    holds no [script] of type [importmap] with a [src]; walking it again,
    for any served root and document path and in any world, returns it as
    it is and leaves the world as it is; and so does the transform on the
    bytes written, when the engine reads them back as the document it
    wrote. *)
Theorem transform_is_idempotent
    (served html : string) (input : list byte) (w : World) (out : list byte)
    (w' : World) :
  single_src_all (html_parse input) = true ->
  transformResponse served html input w = (Ok out, w') ->
  exists rewritten,
    rewrite_nodes (element_handler served html) (html_parse input) w = (Ok rewritten, w')
    /\ out = html_serialize rewritten
    /\ external_sources_all rewritten = []
    /\ (forall served2 html2 w2,
          rewrite_nodes (element_handler served2 html2) rewritten w2 = (Ok rewritten, w2))
    /\ (html_parse out = rewritten ->
        forall served2 html2 w2,
          transformResponse served2 html2 out w2 = (Ok out, w2)).
Proof.
  intros Hsingle. rewrite transformResponse_run.
  destruct (rewrite_nodes (element_handler served html) (html_parse input) w)
    as [[rewritten | e] w1] eqn:R; [| discriminate].
  intros [= <- <-]. exists rewritten.
  assert (Hs : external_sources_all rewritten = []).
  { apply (inlined_all_settled served html (moduleMap w1) (html_parse input) Hsingle).
    apply (rewrite_nodes_inlined _ _ _ _ _ _ R). }
  split; [reflexivity |]. split; [reflexivity |]. split; [exact Hs |]. split.
  - intros served2 html2 w2. apply rewrite_nodes_untouched. exact Hs.
  - intros Hback served2 html2 w2. rewrite transformResponse_run, Hback.
    rewrite (rewrite_nodes_untouched served2 html2 _ Hs w2). reflexivity.
Qed.

(** C10, as amended.  When post-processing throws the failure of an import
    or the error for an unsupported body, the response type is as it was
    and the body was not assigned: a string, a buffer or an unsupported
    body is exactly as it was, and a stream is the stream it was, read to
    its end. *)
Theorem failed_postprocessing_assigns_nothing
    (options : MiddlewareOptions) (st : State) (e : Error) (st' : State) :
  after_next options st = (Throw e, st') ->
  reference_failure e \/ (exists message, e = NotSupported message) ->
  request_url (ctx st') = request_url (ctx st)
  /\ response_type (ctx st') = response_type (ctx st)
  /\ response_body (ctx st') = consumed (response_body (ctx st))
  /\ ((forall stream, response_body (ctx st) <> BReadStream stream) ->
      ctx st' = ctx st).
Proof.
  intros H Hkind. apply after_next_Throw in H.
  - rewrite H. simpl.
    repeat split. intros Hns. destruct (ctx st) as [url body type]. simpl in *.
    destruct body; try reflexivity. exfalso. eapply Hns. reflexivity.
  - destruct Hkind as [[path [-> | ->]] | [message ->]]; discriminate.
Qed.

End Claims.


(* ===================================================================== *)
(** * The claims on concrete requests *)
(* ===================================================================== *)

Import Demo.

(** C1 on the page [/site/pages/a.html] with [src="../maps/m.json"]. *)
Lemma resolved_path_of_external_import_map_witness :
  exists r w',
    element_handler "/site" "/site/pages/a.html" map_script world0 = (r, w')
    /\ imported_paths (log w') = ["/site/maps/m.json"]
    /\ read_paths (log w') = ["/site/maps/m.json"].
Proof.
  destruct (resolved_path_of_external_import_map
              "/site" "/site/pages/a.html" map_script "../maps/m.json" world0
              eq_refl eq_refl eq_refl) as [[r [w' [H1 [H2 H3]]]] _].
  exists r, w'. split; [exact H1 |]. split; [exact H2 | exact (H3 eq_refl)].
Defined.

(** C2 on an inline import map. *)
Lemma only_external_import_maps_are_modified_witness :
  getAttribute inline_script "type" = Some "importmap"
  /\ getAttribute inline_script "src" = None
  /\ element_handler "/site" "/site/pages/a.html" inline_script world0
     = (Ok inline_script, world0).
Proof.
  split; [reflexivity |]. split; [reflexivity |].
  apply (only_external_import_maps_are_modified
           "/site" "/site/pages/a.html" inline_script world0).
  right; right; right. split; reflexivity.
Defined.


(** C4 on a style sheet. *)
Lemma skipped_responses_are_untouched_witness :
  serve options "/style.css" (BString "b{}") "text/css" world0
  = (Ok tt, mkState (mkContext "/style.css" (BString "b{}") "text/css") world0).
Proof.
  destruct (skipped_responses_are_untouched
              options (respond (BString "b{}") "text/css")
              (mkState (mkContext "/style.css" (BOther None) EmptyString) world0)
              (mkState (mkContext "/style.css" (BString "b{}") "text/css") world0)
              eq_refl (or_introl eq_refl))
    as [st' [H [_ [_ [_ [_ [_ [Hsame _]]]]]]]].
  rewrite (Hsame eq_refl) in H. exact H.
Defined.

(** C5 on an HTML response whose body is a plain object. *)
Lemma unsupported_body_is_an_error_witness :
  exists st',
    serve options "/" (BOther (Some "Object")) "text/html" world0
    = (Throw (NotSupported "Not supported! response.body type 'Object'"), st')
    /\ ctx st' = mkContext "/" (BOther (Some "Object")) "text/html".
Proof.
  destruct (unsupported_body_is_an_error
              options (respond (BOther (Some "Object")) "text/html")
              (mkState (mkContext "/" (BOther None) EmptyString) world0)
              (mkState (mkContext "/" (BOther (Some "Object")) "text/html") world0)
              (Some "Object") eq_refl eq_refl eq_refl eq_refl)
    as [st' [H [Hctx _]]].
  exists st'. split; [exact H | exact Hctx].
Defined.

(** C6, as amended, on a fresh process whose disk lacks the file. *)
Lemma failed_import_fails_the_request_witness :
  exists e w',
    serve options "/pages/a.html" (BString (html_text relative_page)) "text/html"
          empty_world
    = (Throw e, mkState (mkContext "/pages/a.html" (BString (html_text relative_page))
                                   "text/html") w')
    /\ reference_failure e.
Proof.
  destruct (failed_import_fails_the_request
              options (respond (BString (html_text relative_page)) "text/html")
              (mkState (mkContext "/pages/a.html" (BOther None) EmptyString) empty_world)
              (html_response (BString (html_text relative_page)) empty_world)
              (html_bytes relative_page) map_path
              eq_refl eq_refl eq_refl eq_refl)
    as [e [w' [_ [He H]]]].
  - left. reflexivity.
  - reflexivity.
  - left. reflexivity.
  - exists e, w'. split; [exact H | exact He].
Defined.

(** C7 on the page as a string, as a buffer and as a stream of one chunk. *)
Lemma representations_agree_witness :
  exists out,
    ctx (snd (after_next options (html_response (BString (html_text relative_page)) world0)))
    = mkContext "/pages/a.html" (BString out) "text/html"
    /\ ctx (snd (after_next options
                   (html_response (BUint8Array (html_bytes relative_page)) world0)))
       = mkContext "/pages/a.html" (BString out) "text/html"
    /\ ctx (snd (after_next options (html_response (BReadStream page_stream) world0)))
       = mkContext "/pages/a.html" (BString out) "text/html".
Proof.
  destruct (representations_agree
              options "/pages/a.html" "text/html" world0
              (html_text relative_page) (html_bytes relative_page) page_stream
              eq_refl eq_refl eq_refl eq_refl) as [_ [_ [_ [_ H]]]].
  - reflexivity.
  - reflexivity.
  - reflexivity.
  - apply H. reflexivity.
Defined.

(** C8, as amended, on the request for the page made again after the file
    of its import map was rewritten. *)
Lemma later_requests_are_served_from_the_module_map_witness :
  exists st3,
    after_next options (mkState (ctx Cases.first_request) Cases.changed_world)
    = (Ok tt, st3)
    /\ ctx st3 = ctx Cases.after_first_request
    /\ read_paths (log (world st3)) = read_paths (log Cases.changed_world).
Proof.
  destruct (later_requests_are_served_from_the_module_map
              options Cases.first_request Cases.after_first_request
              (html_bytes relative_page) Cases.changed_world
              eq_refl eq_refl eq_refl eq_refl (fun _ _ H => H))
    as [_ [_ [st3 [H [Hctx [_ [Hread _]]]]]]].
  exists st3. split; [exact H |]. split; [exact Hctx | exact Hread].
Defined.

(** C9, as amended, on the output of the first request. *)
Lemma transform_is_idempotent_witness :
  exists rewritten,
    html_bytes (inlined_page (quoted "{'imports':{'x':'./x.js'}}"))
    = html_serialize rewritten
    /\ external_sources_all rewritten = []
    /\ rewrite_nodes (element_handler "/site" "/site/pages/b.html") rewritten empty_world
       = (Ok rewritten, empty_world).
Proof.
  destruct (transform_is_idempotent
              "/site" "/site/pages/a.html" (html_bytes relative_page) world0
              (html_bytes (inlined_page (quoted "{'imports':{'x':'./x.js'}}")))
              (snd (transformResponse "/site" "/site/pages/a.html"
                                      (html_bytes relative_page) world0))
              eq_refl eq_refl)
    as [rewritten [_ [Hout [Hnone [Hagain _]]]]].
  exists rewritten. split; [exact Hout |]. split; [exact Hnone | apply Hagain].
Defined.

(** C10, as amended, on a streamed page whose import map is missing. *)
Lemma failed_postprocessing_assigns_nothing_witness :
  response_body (ctx (snd (after_next options streamed_response)))
  = BReadStream (mkReadStream [] false)
  /\ response_type (ctx (snd (after_next options streamed_response))) = "text/html".
Proof.
  destruct (failed_postprocessing_assigns_nothing
              options streamed_response (ReferenceLoadFailure map_path)
              (snd (after_next options streamed_response))
              eq_refl (or_introl (ex_intro _ map_path (or_introl eq_refl))))
    as [_ [Htype [Hbody _]]].
  split; [exact Hbody | exact Htype].
Defined.


(** C6, as stated, fails: the module of a file that was imported before is
    served from the module map after the file was removed, and the request
    returns with the old document inlined. *)
Lemma removed_file_is_not_missed :
  fst first_visit = Ok tt
  /\ files (remove_file map_path (world (snd first_visit))) !! map_path = None
  /\ fst visit_after_removal = Ok tt
  /\ response_body (ctx (snd visit_after_removal))
     = BString (html_text (inlined_page (quoted "{'imports':{'x':'./x.js'}}"))).
Proof. vm_compute. repeat split; reflexivity. Qed.

(** C8, as stated, fails: after the file was rewritten, the second request
    does not read it and answers with the document of the first. *)
Lemma changed_file_is_not_reloaded :
  fst first_visit = Ok tt
  /\ read_paths (log (world (snd first_visit))) = [map_path]
  /\ files (write_file map_path json_v2 (world (snd first_visit))) !! map_path
     = Some (quoted "{'imports':{'x':'./y.js'}}")
  /\ fst visit_after_change = Ok tt
  /\ read_paths (log (world (snd visit_after_change))) = [map_path]
  /\ imported_paths (log (world (snd visit_after_change))) = [map_path; map_path]
  /\ response_body (ctx (snd visit_after_change))
     = BString (html_text (inlined_page (quoted "{'imports':{'x':'./x.js'}}")))
  /\ response_body (ctx (snd visit_after_change))
     <> BString (html_text (inlined_page (quoted "{'imports':{'x':'./y.js'}}"))).
Proof.
  vm_compute. repeat split; try reflexivity. intros H. discriminate H.
Qed.

(** C9, as stated, fails: the output of a returning transform of a page
    whose import map has its [src] written twice still holds an import map
    with a [src], and the transform of that output changes it. *)
Lemma output_with_a_second_src_is_rewritten_again :
  fst (transformResponse "/site" "/site/pages/a.html" (html_bytes twice_page) world0)
  = Ok (html_bytes twice_page_once)
  /\ external_sources_all (html_parse (html_bytes twice_page_once)) = ["n.json"]
  /\ fst (transformResponse "/site" "/site/pages/a.html" (html_bytes twice_page_once)
                            (snd (transformResponse "/site" "/site/pages/a.html"
                                                    (html_bytes twice_page) world0)))
     = Ok (html_bytes (inlined_page (quoted "{'imports':{'x':'./y.js'}}")))
  /\ html_bytes (inlined_page (quoted "{'imports':{'x':'./y.js'}}"))
     <> html_bytes twice_page_once.
Proof.
  vm_compute. repeat split; try reflexivity. intros H. discriminate H.
Qed.

(** C10, as stated, fails: the transform throws on a streamed response, and
    the body that held the page holds nothing any more. *)
Lemma failed_postprocessing_leaves_a_read_stream :
  fst (after_next options streamed_response) = Throw (ReferenceLoadFailure map_path)
  /\ body_bytes (response_body (ctx streamed_response)) = html_bytes relative_page
  /\ body_bytes (response_body (ctx (snd (after_next options streamed_response)))) = []
  /\ response_body (ctx (snd (after_next options streamed_response)))
     <> response_body (ctx streamed_response).
Proof.
  vm_compute. repeat split; try reflexivity. intros H. discriminate H.
Qed.

(* ===================================================================== *)
(** * Further properties of the walk *)
(* ===================================================================== *)

Section WalkInvariants.

Context {RT : Runtime}.

(** A relation between worlds that every import keeps, whatever its
    outcome, is kept by every walk. *)
Lemma rewrite_invariant (R : World -> World -> Prop) served html :
  (forall w, R w w) ->
  (forall w1 w2 w3, R w1 w2 -> R w2 w3 -> R w1 w3) ->
  (forall path w r w', import_json path w = (r, w') -> R w w') ->
  (forall n w r w', rewrite_node (element_handler served html) n w = (r, w') -> R w w')
  /\ (forall l w r w',
         rewrite_nodes (element_handler served html) l w = (r, w') -> R w w').
Proof.
  intros Hrefl Htrans Himport.
  assert (Hhandler : forall el w r w',
             element_handler served html el w = (r, w') -> R w w').
  { intros el w r w'. destruct (external_import_map el) as [src |] eqn:E.
    - rewrite (handler_match _ _ _ _ _ E). unfold bind.
      destruct (import_json (resolved_path served html src) w) as [[d | e] w1] eqn:I;
        intros [= _ <-]; exact (Himport _ _ _ _ I).
    - rewrite (handler_skip _ _ _ _ E). intros [= _ <-]. apply Hrefl. }
  assert (Hlist : forall l,
             Forall (fun n => forall w r w',
                         rewrite_node (element_handler served html) n w = (r, w') ->
                         R w w') l ->
             forall w r w',
               rewrite_nodes (element_handler served html) l w = (r, w') -> R w w').
  { intros l H. induction H as [| c l Hc _ IHl]; intros w r w'; simpl.
    - intros [= _ <-]. apply Hrefl.
    - unfold bind at 1.
      destruct (rewrite_node (element_handler served html) c w) as [[c' | e] w1] eqn:Ec.
      + apply Hc in Ec. unfold bind.
        destruct (rewrite_nodes (element_handler served html) l w1)
          as [[l' | e] w2] eqn:El; intros [= _ <-];
          apply IHl in El; eapply Htrans; eauto.
      + intros [= _ <-]. eapply Hc; eauto. }
  assert (Hnode : forall n w r w',
             rewrite_node (element_handler served html) n w = (r, w') -> R w w').
  { induction n as [data | tag attrs children IH] using node_ind; intros w r w'.
    - simpl. intros [= _ <-]. apply Hrefl.
    - rewrite rewrite_node_Elem. unfold bind at 1.
      destruct (element_handler served html (mkElement tag attrs None) w)
        as [[el | e] w1] eqn:Eh.
      + apply Hhandler in Eh. destruct (innerContent el) as [content |].
        * intros [= _ <-]. exact Eh.
        * unfold bind.
          destruct (rewrite_nodes (element_handler served html) children w1)
            as [[l' | e] w2] eqn:El; intros [= _ <-];
            apply (Hlist _ IH) in El; eapply Htrans; eauto.
      + intros [= _ <-]. eapply Hhandler; eauto. }
  split; [exact Hnode |].
  intros l. apply Hlist. apply Forall_forall. intros n _. apply Hnode.
Qed.

End WalkInvariants.

(* ===================================================================== *)
(** * Further properties of the middleware *)
(* ===================================================================== *)

Section Middleware.

Context {RT : Runtime}.

Lemma should_run_calls_app l1 l2 :
  should_run_calls (l1 ++ l2) = (should_run_calls l1 + should_run_calls l2)%nat.
Proof. unfold should_run_calls. rewrite List.filter_app, List.length_app. reflexivity. Qed.

Lemma import_json_should_run_calls path w r w' :
  import_json path w = (r, w') ->
  should_run_calls (log w') = should_run_calls (log w).
Proof.
  assert (H1 : should_run_calls [Imported path] = 0%nat) by reflexivity.
  assert (H2 : should_run_calls [Imported path; FileRead path] = 0%nat) by reflexivity.
  destruct (import_json_cases path w)
    as [[d E] | [[E F] | [[E P] | [d [E P]]]]].
  - rewrite (import_json_cached _ _ _ E). intros [= _ <-]. simpl.
    rewrite should_run_calls_app, H1. lia.
  - rewrite (import_json_unreadable _ _ E F). intros [= _ <-]. simpl.
    rewrite should_run_calls_app, H2. lia.
  - rewrite (import_json_invalid _ _ E P). intros [= _ <-]. simpl.
    rewrite should_run_calls_app, H2. lia.
  - rewrite (import_json_loaded _ _ _ E P). intros [= _ <-]. simpl.
    rewrite should_run_calls_app, H2. lia.
Qed.

Lemma transformResponse_should_run_calls served html input w r w' :
  transformResponse served html input w = (r, w') ->
  should_run_calls (log w') = should_run_calls (log w).
Proof.
  rewrite transformResponse_run.
  destruct (rewrite_nodes (element_handler served html) (html_parse input) w)
    as [r0 w0] eqn:R.
  assert (H : should_run_calls (log w0) = should_run_calls (log w)).
  { refine (proj2 (rewrite_invariant
                     (fun w w' => should_run_calls (log w') = should_run_calls (log w))
                     served html _ _ _) _ _ _ _ R).
    - reflexivity.
    - intros w1 w2 w3 H12 H23. congruence.
    - apply import_json_should_run_calls. }
  destruct r0; intros [= _ <-]; exact H.
Qed.

(** Where the world of a finished post-processing comes from. *)
Lemma after_next_world options st :
  (response_is (ctx st) "text/html" = false /\ snd (after_next options st) = st)
  \/ (response_is (ctx st) "text/html" = true
      /\ (world (snd (after_next options st)) = world (consulted options st)
          \/ exists input r,
               transformResponse (servedDirectoryAbsolutePath options)
                                 (requested_document options (ctx st)) input
                                 (world (consulted options st))
               = (r, world (snd (after_next options st))))).
Proof.
  destruct (response_is (ctx st) "text/html") eqn:Hhtml;
    [right; split; [reflexivity |] | left; split; [reflexivity |]].
  2: { rewrite (after_next_not_html _ _ Hhtml). reflexivity. }
  destruct (runs options (ctx st)) eqn:Hruns.
  2: { left. rewrite (after_next_declined _ _ Hhtml Hruns). reflexivity. }
  destruct (transform_input (response_body (ctx st))) as [input |] eqn:Hin.
  - right. exists input.
    pose proof (after_next_supported _ _ _ Hhtml Hruns Hin) as S. cbv zeta in S.
    destruct (transformResponse _ _ input _) as [[out | e] w'] eqn:T;
      rewrite S; eexists; reflexivity.
  - left. rewrite (after_next_dispatch _ _ Hhtml Hruns).
    destruct (response_body (ctx st)) as [text | buffer | [chunks [|]] | name];
      try discriminate Hin.
    + rewrite read_then_install. reflexivity.
    + reflexivity.
Qed.

(** X2.  The run-predicate, when there is one, is called exactly once for
    an HTML response, whether the request then returns or throws, and it
    is not called for any other response. *)
Theorem run_predicate_is_called_once (options : MiddlewareOptions) (st : State) :
  should_run_calls (log (world (snd (after_next options st)))) =
  (should_run_calls (log (world st)) +
   match shouldRun options with
   | Some _ => if response_is (ctx st) "text/html" then 1 else 0
   | None => 0
   end)%nat.
Proof.
  assert (Hc : should_run_calls (log (world (consulted options st))) =
               (should_run_calls (log (world st)) +
                match shouldRun options with Some _ => 1 | None => 0 end)%nat).
  { unfold consulted. destruct (shouldRun options); simpl.
    - rewrite should_run_calls_app. reflexivity.
    - lia. }
  destruct (after_next_world options st) as [[Hh ->] | [Hh [-> | [input [r T]]]]];
    rewrite Hh.
  - destruct (shouldRun options); lia.
  - rewrite Hc. destruct (shouldRun options); reflexivity.
  - rewrite (transformResponse_should_run_calls _ _ _ _ _ _ T), Hc.
    destruct (shouldRun options); reflexivity.
Qed.

(** X3.  A stream that ends in an error fails the request with that
    failure before anything is transformed: nothing is imported or read,
    the body is not assigned and the stream has been consumed; the type is
    [text/plain], set by the error handling of koa's own listener on the
    stream. *)
Theorem broken_stream_fails_the_request
    (options : MiddlewareOptions) (st : State) (stream : ReadStream) :
  response_is (ctx st) "text/html" = true ->
  runs options (ctx st) = true ->
  response_body (ctx st) = BReadStream stream ->
  broken stream = true ->
  exists st',
    after_next options st = (Throw StreamFailure, st')
    /\ ctx st' = mkContext (request_url (ctx st)) (BReadStream (mkReadStream [] true))
                           "text/plain"
    /\ files (world st') = files (world st)
    /\ moduleMap (world st') = moduleMap (world st)
    /\ imported_paths (log (world st')) = imported_paths (log (world st))
    /\ read_paths (log (world st')) = read_paths (log (world st)).
Proof.
  intros Hhtml Hruns Hbody Hb.
  rewrite (after_next_dispatch _ _ Hhtml Hruns), Hbody, read_then_install, Hb.
  cbv zeta. eexists. split; [reflexivity |]. simpl.
  rewrite consulted_ctx, consulted_files, consulted_moduleMap.
  destruct (consulted_reads options st) as [Hr Hi]. rewrite Hr, Hi. auto.
Qed.

(** X4.  How a stream is cut into chunks does not matter: for an HTML
    response that is to be transformed, two streams whose chunks
    concatenate to the same bytes, and that end alike, give the same
    outcome and the same state. *)
Theorem stream_chunking_is_irrelevant
    (options : MiddlewareOptions) (url type : string) (w : World)
    (s1 s2 : ReadStream) :
  type_is type "text/html" = true ->
  runs options (mkContext url (BReadStream s1) type) = true ->
  runs options (mkContext url (BReadStream s2) type) = true ->
  broken s1 = broken s2 ->
  List.concat (unread s1) = List.concat (unread s2) ->
  after_next options (mkState (mkContext url (BReadStream s1) type) w)
  = after_next options (mkState (mkContext url (BReadStream s2) type) w).
Proof.
  intros Hhtml R1 R2 Hb Hc.
  rewrite (after_next_dispatch options (mkState (mkContext url (BReadStream s1) type) w)
             Hhtml R1).
  rewrite (after_next_dispatch options (mkState (mkContext url (BReadStream s2) type) w)
             Hhtml R2).
  simpl. rewrite !read_then_install. cbv zeta.
  rewrite !consulted_ctx. simpl. rewrite Hb, Hc.
  rewrite (consulted_world options _ (mkContext url (BReadStream s2) type) w).
  unfold requested_document. simpl.
  destruct (broken s2); [reflexivity |].
  rewrite !transform_and_install_run. simpl. reflexivity.
Qed.

(** X5.  When post-processing of an HTML response that is to be
    transformed returns, the body was of a supported shape, and the
    response now holds the text of the transform's output, as a string,
    with the type [text/html]: a buffer or a stream is replaced by text. *)
Theorem returning_transform_installs_text
    (options : MiddlewareOptions) (st st' : State) :
  response_is (ctx st) "text/html" = true ->
  runs options (ctx st) = true ->
  after_next options st = (Ok tt, st') ->
  exists input out,
    transform_input (response_body (ctx st)) = Some input
    /\ transformResponse (servedDirectoryAbsolutePath options)
                         (requested_document options (ctx st)) input
                         (world (consulted options st)) = (Ok out, world st')
    /\ ctx st' = mkContext (request_url (ctx st)) (BString (utf8_decode out)) "text/html".
Proof.
  intros Hhtml Hruns H.
  destruct (transform_input (response_body (ctx st))) as [input |] eqn:Hin.
  - pose proof (after_next_supported _ _ _ Hhtml Hruns Hin) as S. cbv zeta in S.
    destruct (transformResponse _ _ input _) as [[out | e] w'] eqn:T;
      rewrite S in H; [| discriminate H].
    injection H as <-. exists input, out. auto.
  - rewrite (after_next_dispatch _ _ Hhtml Hruns) in H.
    destruct (response_body (ctx st)) as [text | buffer | [chunks [|]] | name];
      try discriminate Hin.
    + rewrite read_then_install in H. discriminate H.
    + discriminate H.
Qed.

(** X6.  An HTML response whose document holds no external import map is
    still rewritten as text: the request returns, nothing is imported or
    read, and the body is the text of the document as the engine writes it
    back.  For a string body, an engine that writes back the bytes it read
    and a codec that decodes what it encoded, that text is the body that
    was there. *)
Theorem documents_without_external_import_maps_pass_through
    (options : MiddlewareOptions) (st : State) (input : list byte) :
  response_is (ctx st) "text/html" = true ->
  runs options (ctx st) = true ->
  transform_input (response_body (ctx st)) = Some input ->
  external_sources_all (html_parse input) = [] ->
  after_next options st =
    (Ok tt,
     mkState (mkContext (request_url (ctx st))
                        (BString (utf8_decode (html_serialize (html_parse input))))
                        "text/html")
             (world (consulted options st)))
  /\ (forall text,
         response_body (ctx st) = BString text ->
         html_serialize (html_parse input) = input ->
         utf8_decode (utf8_encode text) = text ->
         response_body (ctx (snd (after_next options st))) = BString text).
Proof.
  intros Hhtml Hruns Hin Hnone.
  pose proof (after_next_supported _ _ _ Hhtml Hruns Hin) as S. cbv zeta in S.
  rewrite transformResponse_run in S.
  rewrite (rewrite_nodes_untouched _ _ _ Hnone) in S.
  split; [exact S |].
  intros text Hbody Hback Hcodec. rewrite S. simpl.
  rewrite Hbody in Hin. simpl in Hin. injection Hin as <-.
  rewrite Hback, Hcodec. reflexivity.
Qed.

(** X7.  The imports of a request that returns are the [src] values of the
    external import maps of the response, in document order, each resolved
    with the served directory and with the document path that is the join
    of the served directory and the file path of the request URL. *)
Theorem imports_of_a_returning_request
    (options : MiddlewareOptions) (st st' : State) (input : list byte) :
  response_is (ctx st) "text/html" = true ->
  runs options (ctx st) = true ->
  transform_input (response_body (ctx st)) = Some input ->
  after_next options st = (Ok tt, st') ->
  imported_paths (log (world st')) =
  (imported_paths (log (world st))
     ++ List.map (resolved_path
                    (servedDirectoryAbsolutePath options)
                    (Path.join [servedDirectoryAbsolutePath options;
                                getFilePathOfRequestUrl options (request_url (ctx st))]))
                 (external_sources_all (html_parse input)))%list.
Proof.
  intros Hhtml Hruns Hin H.
  pose proof (after_next_supported _ _ _ Hhtml Hruns Hin) as S. cbv zeta in S.
  rewrite transformResponse_run in S.
  destruct (rewrite_nodes _ (html_parse input) (world (consulted options st)))
    as [[rewritten | e] w'] eqn:R; rewrite S in H; [| discriminate H].
  injection H as <-. simpl.
  rewrite (rewrite_nodes_imported _ _ _ _ _ _ R).
  destruct (consulted_reads options st) as [_ ->]. reflexivity.
Qed.

End Middleware.

(* ===================================================================== *)
(** * Further properties of the transform *)
(* ===================================================================== *)

Section Transform.

Context {RT : Runtime}.

Lemma import_json_Throw_modules path w e w' :
  import_json path w = (Throw e, w') -> moduleMap w' = moduleMap w.
Proof.
  destruct (import_json_cases path w)
    as [[d E] | [[E F] | [[E P] | [d [E P]]]]].
  - rewrite (import_json_cached _ _ _ E). discriminate.
  - rewrite (import_json_unreadable _ _ E F). intros [= _ <-]. reflexivity.
  - rewrite (import_json_invalid _ _ E P). intros [= _ <-]. reflexivity.
  - rewrite (import_json_loaded _ _ _ E P). discriminate.
Qed.

Lemma stopped_at_head served html s1 s2 w e w' :
  stopped_at served html s1 w e w' -> stopped_at served html (s1 ++ s2) w e w'.
Proof.
  intros [before [path [after [Hs [Hl [He Hm]]]]]].
  exists before, path, (after ++ List.map (resolved_path served html) s2)%list.
  split; [| auto].
  rewrite List.map_app, Hs, <- app_assoc. reflexivity.
Qed.

Lemma stopped_at_tail served html s1 s2 w w1 e w' :
  imported_paths (log w1) =
    (imported_paths (log w) ++ List.map (resolved_path served html) s1)%list ->
  stopped_at served html s2 w1 e w' -> stopped_at served html (s1 ++ s2) w e w'.
Proof.
  intros H1 [before [path [after [Hs [Hl [He Hm]]]]]].
  exists (List.map (resolved_path served html) s1 ++ before)%list, path, after.
  split; [| split; [| auto]].
  - rewrite List.map_app, Hs, <- app_assoc. reflexivity.
  - rewrite Hl, H1, <- !app_assoc. reflexivity.
Qed.

Lemma rewrite_nodes_stopped_step served html c l w e w' :
  (forall w e w',
      rewrite_node (element_handler served html) c w = (Throw e, w') ->
      stopped_at served html (external_sources c) w e w') ->
  (forall w e w',
      rewrite_nodes (element_handler served html) l w = (Throw e, w') ->
      stopped_at served html (external_sources_all l) w e w') ->
  rewrite_nodes (element_handler served html) (c :: l) w = (Throw e, w') ->
  stopped_at served html (external_sources_all (c :: l)) w e w'.
Proof.
  intros Hc Hl H. simpl in H. simpl external_sources_all.
  apply bind_inv_Throw in H as [H | [c' [w1 [Ec H]]]].
  - apply stopped_at_head. apply Hc. exact H.
  - apply bind_inv_Throw in H as [H | [l' [w2 [_ H]]]]; [| discriminate H].
    eapply stopped_at_tail; [exact (rewrite_node_imported _ _ _ _ _ _ Ec) |].
    apply Hl. exact H.
Qed.

Lemma rewrite_node_stopped served html n :
  forall w e w',
    rewrite_node (element_handler served html) n w = (Throw e, w') ->
    stopped_at served html (external_sources n) w e w'.
Proof.
  induction n as [data | tag attrs children IH] using node_ind; intros w e w'.
  - simpl. discriminate.
  - assert (IHl : forall w e w',
               rewrite_nodes (element_handler served html) children w = (Throw e, w') ->
               stopped_at served html (external_sources_all children) w e w').
    { clear tag attrs w e w'. induction IH as [| c l Hc _ IHl]; intros w e w'.
      - simpl. discriminate.
      - apply rewrite_nodes_stopped_step; assumption. }
    rewrite rewrite_node_Elem, external_sources_Elem. intros H.
    destruct (external_import_map (mkElement tag attrs None)) as [src |] eqn:Em.
    + apply bind_inv_Throw in H as [H | [el [w1 [Eh H]]]].
      * rewrite (handler_match _ _ _ _ _ Em) in H.
        apply bind_inv_Throw in H as [H | [d [w1 [_ H]]]]; [| discriminate H].
        exists [], (resolved_path served html src), [].
        split; [reflexivity |]. split; [apply (import_json_imported _ _ _ _ H) |].
        destruct (import_json_Throw _ _ _ _ H) as [Hn [_ He]].
        split; [exact He |].
        rewrite (import_json_Throw_modules _ _ _ _ H). exact Hn.
      * apply handler_Ok in Eh. rewrite Em in Eh. destruct Eh as [d [_ ->]].
        discriminate H.
    + rewrite (bind_Ok _ _ _ _ _ (handler_skip served html _ w Em)) in H. simpl in H.
      apply bind_inv_Throw in H as [H | [l' [w2 [_ H]]]]; [| discriminate H].
      apply IHl. exact H.
Qed.

Lemma rewrite_nodes_stopped served html l :
  forall w e w',
    rewrite_nodes (element_handler served html) l w = (Throw e, w') ->
    stopped_at served html (external_sources_all l) w e w'.
Proof.
  induction l as [| c l IHl]; intros w e w'.
  - simpl. discriminate.
  - apply rewrite_nodes_stopped_step; [apply rewrite_node_stopped | exact IHl].
Qed.

(** X8.  A transform that throws has stopped at the first import that
    failed: the external import maps before it were imported, in document
    order, those after it were not, the failure names the path of that
    import, and the module map has no module for it. *)
Theorem transform_stops_at_the_first_failure
    (served html : string) (input : list byte) (w : World) (e : Error) (w' : World) :
  transformResponse served html input w = (Throw e, w') ->
  exists before path after,
    List.map (resolved_path served html) (external_sources_all (html_parse input))
    = (before ++ path :: after)%list
    /\ imported_paths (log w') = (imported_paths (log w) ++ before ++ [path])%list
    /\ (e = ReferenceLoadFailure path \/ e = ReferenceParseFailure path)
    /\ moduleMap w' !! path = None.
Proof.
  rewrite transformResponse_run.
  destruct (rewrite_nodes (element_handler served html) (html_parse input) w)
    as [[rewritten | e0] w0] eqn:R; [discriminate |].
  intros [= <- <-]. exact (rewrite_nodes_stopped _ _ _ _ _ _ R).
Qed.

End Transform.

Section RepeatedRequests.

Context {RT : Runtime}.

(** X10.  Once a transform has returned, the same input transforms to the
    same output in every world that still holds the modules it left in the
    map, whatever has become of the files: no file is read, the module
    map and the files stay as they are. *)
Theorem repeated_transform_is_served_from_the_module_map
    (served html : string) (input : list byte) (w : World) (out : list byte)
    (w1 w2 : World) :
  transformResponse served html input w = (Ok out, w1) ->
  (forall path document,
      moduleMap w1 !! path = Some document -> moduleMap w2 !! path = Some document) ->
  exists w3,
    transformResponse served html input w2 = (Ok out, w3)
    /\ moduleMap w3 = moduleMap w2
    /\ files w3 = files w2
    /\ read_paths (log w3) = read_paths (log w2).
Proof.
  rewrite !transformResponse_run.
  destruct (rewrite_nodes (element_handler served html) (html_parse input) w)
    as [[rewritten | e0] w0] eqn:R; [| discriminate].
  intros [= <- <-] Hsub.
  apply rewrite_nodes_inlined in R.
  apply (inlined_all_mono _ _ _ _ Hsub) in R.
  destruct (rewrite_nodes_from_modules _ _ _ _ _ R) as [w3 [R3 H]].
  exists w3. rewrite R3. auto.
Qed.

End RepeatedRequests.

(* ===================================================================== *)
(** * The paths that the middleware computes *)
(* ===================================================================== *)

Section Paths.

Context {RT : Runtime}.

Lemma strlen_String c s : (Path.strlen (String c s) >? 0) = true.
Proof. unfold Path.strlen. simpl String.length. apply Z.gtb_lt. lia. Qed.

Lemma strlen_String_nonzero c s : (Path.strlen (String c s) =? 0) = false.
Proof. unfold Path.strlen. simpl String.length. apply Z.eqb_neq. lia. Qed.

Lemma isAbsolute_String s : Path.isAbsolute (String "/" s) = true.
Proof. unfold Path.isAbsolute. rewrite strlen_String. reflexivity. Qed.

(** An absolute path is one that starts with a slash. *)
Lemma isAbsolute_inv path :
  Path.isAbsolute path = true -> exists s, path = String "/" s.
Proof.
  destruct path as [| c s]; [discriminate |].
  unfold Path.isAbsolute. rewrite strlen_String.
  change (Path.is_char Path.SLASH (Path.charAt (String c s) 0))
    with (Ascii.eqb Path.SLASH c).
  cbn [andb]. intros H. apply Ascii.eqb_eq in H. subst c. exists s. reflexivity.
Qed.

Lemma normalize_absolute s : Path.isAbsolute (Path.normalize (String "/" s)) = true.
Proof.
  unfold Path.normalize. rewrite strlen_String_nonzero.
  replace (Path.is_char Path.SLASH (Path.charAt (String "/" s) 0)) with true
    by reflexivity.
  cbv zeta. apply isAbsolute_String.
Qed.

Lemma join_absolute p q :
  Path.isAbsolute p = true -> Path.isAbsolute (Path.join [p; q]) = true.
Proof.
  intros H. apply isAbsolute_inv in H as [s ->].
  unfold Path.join. cbn [Path.join_args]. rewrite strlen_String.
  destruct (Path.strlen q >? 0); apply normalize_absolute.
Qed.

Lemma dirname_scan_range path n b :
  Path.dirname_scan path n b = -1 \/ 1 <= Path.dirname_scan path n b.
Proof.
  revert b. induction n as [| n IH]; intros b; simpl; [left; reflexivity |].
  destruct (Path.is_char Path.SLASH (Path.charAt path (Z.of_nat (S n)))).
  - destruct b; simpl; [apply IH | right; lia].
  - apply IH.
Qed.

Lemma dirname_absolute path :
  Path.isAbsolute path = true -> Path.isAbsolute (Path.dirname path) = true.
Proof.
  intros H. apply isAbsolute_inv in H as [s ->].
  unfold Path.dirname. rewrite strlen_String_nonzero.
  replace (Path.is_char Path.SLASH (Path.charAt (String "/" s) 0)) with true
    by reflexivity.
  cbv zeta.
  pose proof (dirname_scan_range (String "/" s) (String.length (String "/" s) - 1) true)
    as E.
  set (e := Path.dirname_scan (String "/" s) (String.length (String "/" s) - 1) true)
    in *.
  destruct (Z.eqb_spec e (-1)) as [E1 | E1]; [reflexivity |].
  cbn [andb]. destruct (e =? 1); [reflexivity |].
  unfold Path.slice. rewrite Z.sub_0_r.
  destruct (Z.to_nat e) as [| k] eqn:Ek; [lia |].
  simpl. apply isAbsolute_String.
Qed.

(** Resolution against an absolute directory does not look at the working
    directory, and gives an absolute path. *)
Lemma resolve_absolute cwd cwd' dir src :
  Path.isAbsolute dir = true ->
  Path.resolve cwd [dir; src] = Path.resolve cwd' [dir; src]
  /\ Path.isAbsolute (Path.resolve cwd [dir; src]) = true.
Proof.
  intros H. apply isAbsolute_inv in H as [s ->].
  unfold Path.resolve. simpl rev. simpl app.
  assert (E : forall c acc,
             Path.resolve_args [String "/" s; c] acc
             = ((String "/" s ++ "/" ++ acc)%string, true)).
  { intros c acc. cbn [Path.resolve_args]. rewrite strlen_String_nonzero.
    replace (Path.is_char Path.SLASH (Path.charAt (String "/" s) 0)) with true
      by reflexivity.
    reflexivity. }
  assert (U : forall rest acc,
             Path.resolve_args (src :: rest) acc
             = if Path.strlen src =? 0 then Path.resolve_args rest acc
               else if Path.is_char Path.SLASH (Path.charAt src 0)
                    then ((src ++ "/" ++ acc)%string, true)
                    else Path.resolve_args rest (src ++ "/" ++ acc)%string)
    by reflexivity.
  assert (F : forall c, exists r, Path.resolve_args [src; String "/" s; c] "" = (r, true)
                                  /\ forall c', Path.resolve_args [src; String "/" s; c'] ""
                                                = (r, true)).
  { intros c. destruct (Path.strlen src =? 0) eqn:E0.
    - eexists. split; [rewrite U, ?E0; apply (E c) |].
      intros c'. rewrite U, ?E0. apply (E c').
    - destruct (Path.is_char Path.SLASH (Path.charAt src 0)) eqn:E1.
      + eexists. split; [rewrite U, ?E0, ?E1; reflexivity |].
        intros c'. rewrite U, ?E0, ?E1. reflexivity.
      + eexists. split; [rewrite U, ?E0, ?E1; apply (E c) |].
        intros c'. rewrite U, ?E0, ?E1. apply (E c'). }
  destruct (F cwd) as [r [Hr Hr']]. rewrite Hr, (Hr' cwd'). split; [reflexivity |].
  simpl negb. destruct (Path.strlen _ >? 0); reflexivity.
Qed.

(** X11.  When the served directory is an absolute path, the document path
    of every request is absolute, and so is every path that is imported
    for it; none of them depends on the working directory of the
    process. *)
Theorem import_paths_are_absolute
    (options : MiddlewareOptions) (c : Context) (src : string) :
  Path.isAbsolute (servedDirectoryAbsolutePath options) = true ->
  Path.isAbsolute (requested_document options c) = true
  /\ Path.isAbsolute
       (resolved_path (servedDirectoryAbsolutePath options)
                      (requested_document options c) src) = true
  /\ (forall cwd,
         resolved_path (servedDirectoryAbsolutePath options)
                       (requested_document options c) src
         = if Path.isAbsolute src
           then Path.join [servedDirectoryAbsolutePath options; src]
           else Path.resolve cwd [Path.dirname (requested_document options c); src]).
Proof.
  intros H.
  assert (Hdoc : Path.isAbsolute (requested_document options c) = true).
  { unfold requested_document. apply join_absolute. exact H. }
  pose proof (dirname_absolute _ Hdoc) as Hdir.
  split; [exact Hdoc |]. unfold resolved_path.
  destruct (Path.isAbsolute src).
  - split; [apply join_absolute; exact H | reflexivity].
  - split.
    + apply (resolve_absolute process_cwd process_cwd _ src Hdir).
    + intros cwd. apply (resolve_absolute process_cwd cwd _ src Hdir).
Qed.

(** Without a run-predicate, post-processing looks at the request URL only
    through the file path that the options give for it. *)
Lemma after_next_by_file_path options url1 url2 body type w :
  shouldRun options = None ->
  getFilePathOfRequestUrl options url1 = getFilePathOfRequestUrl options url2 ->
  let run url := after_next options (mkState (mkContext url body type) w) in
  fst (run url1) = fst (run url2)
  /\ world (snd (run url1)) = world (snd (run url2))
  /\ response_body (ctx (snd (run url1))) = response_body (ctx (snd (run url2)))
  /\ response_type (ctx (snd (run url1))) = response_type (ctx (snd (run url2))).
Proof.
  intros Hnone Hpath run. subst run. cbv beta.
  destruct (type_is type "text/html") eqn:Hhtml.
  2: { rewrite !after_next_not_html by exact Hhtml. simpl. auto. }
  assert (Hruns : forall url, runs options (mkContext url body type) = true).
  { intros url. unfold runs. rewrite Hnone. reflexivity. }
  assert (Hc : forall url,
             consulted options (mkState (mkContext url body type) w)
             = mkState (mkContext url body type) w).
  { intros url. unfold consulted. rewrite Hnone. reflexivity. }
  assert (Hdoc : requested_document options (mkContext url1 body type)
                 = requested_document options (mkContext url2 body type)).
  { unfold requested_document. simpl. rewrite Hpath. reflexivity. }
  destruct (transform_input body) as [input |] eqn:Hin.
  - pose proof (after_next_supported options (mkState (mkContext url1 body type) w)
                  input Hhtml (Hruns url1) Hin) as S1.
    pose proof (after_next_supported options (mkState (mkContext url2 body type) w)
                  input Hhtml (Hruns url2) Hin) as S2.
    cbv zeta in S1, S2. rewrite !Hc in S1, S2. simpl in S1, S2.
    rewrite Hdoc in S1.
    destruct (transformResponse _ _ input w) as [[out | e] w'];
      rewrite S1, S2; simpl; auto.
  - rewrite (after_next_dispatch options (mkState (mkContext url1 body type) w)
               Hhtml (Hruns url1)).
    rewrite (after_next_dispatch options (mkState (mkContext url2 body type) w)
               Hhtml (Hruns url2)).
    rewrite !Hc. simpl.
    destruct body as [text | buffer | [chunks [|]] | name]; try discriminate Hin.
    + rewrite !read_then_install. simpl. auto.
    + simpl. auto.
Qed.

(** X12.  In the example application, a response to the request for [/] is
    post-processed as the response to the request for [/index.html] is:
    same outcome, same world, same body and type. *)
Theorem root_is_served_as_index
    (cwd file : string) (body : Body) (type : string) (w : World) :
  let run url := after_next (App.options cwd file) (mkState (mkContext url body type) w) in
  fst (run "/") = fst (run "/index.html")
  /\ world (snd (run "/")) = world (snd (run "/index.html"))
  /\ response_body (ctx (snd (run "/"))) = response_body (ctx (snd (run "/index.html")))
  /\ response_type (ctx (snd (run "/"))) = response_type (ctx (snd (run "/index.html"))).
Proof.
  apply after_next_by_file_path; reflexivity.
Qed.

End Paths.

(* ===================================================================== *)
(** * The further properties on concrete requests *)
(* ===================================================================== *)

(** X3 on a page streamed from a file that fails while it is read. *)
Lemma broken_stream_fails_the_request_witness :
  exists st',
    after_next options Cases.broken_response = (Throw StreamFailure, st')
    /\ response_type (ctx st') = "text/plain"
    /\ imported_paths (log (world st')) = [].
Proof.
  destruct (broken_stream_fails_the_request
              options Cases.broken_response Cases.broken_stream
              eq_refl eq_refl eq_refl eq_refl) as [st' [H [Hc [_ [_ [Hi _]]]]]].
  exists st'. split; [exact H |]. split; [rewrite Hc; reflexivity | exact Hi].
Defined.

(** X4 on a paragraph cut after its start tag, and cut before its end tag. *)
Lemma stream_chunking_is_irrelevant_witness :
  after_next options (html_response (BReadStream Cases.cut_early) world0)
  = after_next options (html_response (BReadStream Cases.cut_late) world0).
Proof.
  apply (stream_chunking_is_irrelevant
           options "/pages/a.html" "text/html" world0 Cases.cut_early Cases.cut_late);
    reflexivity.
Defined.

(** X5 on the page with an external import map, supplied as a buffer. *)
Lemma returning_transform_installs_text_witness :
  exists out,
    ctx (snd (after_next options
                (html_response (BUint8Array (html_bytes relative_page)) world0)))
    = mkContext "/pages/a.html" (BString (utf8_decode out)) "text/html".
Proof.
  destruct (returning_transform_installs_text
              options
              (html_response (BUint8Array (html_bytes relative_page)) world0)
              (snd (after_next options
                      (html_response (BUint8Array (html_bytes relative_page)) world0)))
              eq_refl eq_refl eq_refl) as [input [out [_ [_ H]]]].
  exists out. exact H.
Defined.

(** X6 on the page with an inline import map. *)
Lemma documents_without_external_import_maps_pass_through_witness :
  after_next options (html_response (BString (html_text inline_page)) world0)
  = (Ok tt, html_response (BString (html_text inline_page)) world0).
Proof.
  exact (proj1 (documents_without_external_import_maps_pass_through
                  options (html_response (BString (html_text inline_page)) world0)
                  (html_bytes inline_page) eq_refl eq_refl eq_refl eq_refl)).
Defined.

(** X7 on the page with two external import maps. *)
Lemma imports_of_a_returning_request_witness :
  imported_paths
    (log (world (snd (after_next options
                        (html_response (BString (html_text two_maps_page)) world0)))))
  = ["/site/maps/m.json"; "/site/pages/n.json"].
Proof.
  exact (imports_of_a_returning_request
           options (html_response (BString (html_text two_maps_page)) world0)
           (snd (after_next options
                   (html_response (BString (html_text two_maps_page)) world0)))
           (html_bytes two_maps_page) eq_refl eq_refl eq_refl eq_refl).
Defined.

(** X8 on the page with two external import maps, the second file missing. *)
Lemma transform_stops_at_the_first_failure_witness :
  exists before path after,
    ["/site/maps/m.json"; "/site/pages/n.json"] = (before ++ path :: after)%list
    /\ (ReferenceLoadFailure Cases.second_map_path = ReferenceLoadFailure path
        \/ ReferenceLoadFailure Cases.second_map_path = ReferenceParseFailure path).
Proof.
  destruct (transform_stops_at_the_first_failure
              "/site" "/site/pages/a.html" (html_bytes two_maps_page)
              Cases.world_without_second_map
              (ReferenceLoadFailure Cases.second_map_path)
              (snd (transformResponse "/site" "/site/pages/a.html"
                                      (html_bytes two_maps_page)
                                      Cases.world_without_second_map))
              eq_refl) as [before [path [after [Hs [_ [He _]]]]]].
  exists before, path, after. split; [exact Hs | exact He].
Defined.

(** X10 on the page of the first request, after its file was removed. *)
Lemma repeated_transform_is_served_from_the_module_map_witness :
  exists w3,
    transformResponse "/site" "/site/pages/a.html" (html_bytes relative_page)
                      Cases.world_after_removal
    = (Ok (html_bytes (inlined_page (quoted "{'imports':{'x':'./x.js'}}"))), w3)
    /\ read_paths (log w3) = read_paths (log Cases.world_after_removal).
Proof.
  destruct (repeated_transform_is_served_from_the_module_map
              "/site" "/site/pages/a.html" (html_bytes relative_page) world0
              (html_bytes (inlined_page (quoted "{'imports':{'x':'./x.js'}}")))
              Cases.world_after_first_transform Cases.world_after_removal
              eq_refl (fun _ _ H => H)) as [w3 [H [_ [_ Hr]]]].
  exists w3. split; [exact H | exact Hr].
Defined.

(** X11 on the options of the examples, whose served directory is [/site]. *)
Lemma import_paths_are_absolute_witness :
  Path.isAbsolute
    (resolved_path "/site"
       (requested_document options (mkContext "/" (BOther None) "text/html"))
       "maps/m.json") = true.
Proof.
  exact (proj1 (proj2 (import_paths_are_absolute
                         options (mkContext "/" (BOther None) "text/html")
                         "maps/m.json" eq_refl))).
Defined.
